(** * daily-diet: the users routes over the [users] and [meal] tables

    A shallow embedding of [src/routes/users.ts] (the [usersRoutes] plugin)
    and of the [meal] migration.  The relational store is a pair of row
    lists, a knex query is a function on them, and a route handler is a
    computation in a small state-and-exception monad, one bind per [await]. *)

From Stdlib Require Import Ascii.
From stdpp Require Import base numbers strings option sorting list.

Open Scope string_scope.
Open Scope list_scope.
Open Scope nat_scope.

(** ** Data model *)

Definition Uuid := string.

(** A point in time, as milliseconds since the epoch. *)
Definition Timestamp := Z.

(** A JavaScript [Date]: [None] is the Invalid Date that [new Date(s)]
    yields on a string it cannot parse, and that reaches the database as
    NULL. *)
Definition Date := option Timestamp.

(** Rows of [users].  The migration of this table is not among the sources;
    the columns are those the registration handler inserts, [birthDate]
    holding the [Date] it was given. *)
Module users.
Record row := mk {
  id : Uuid;
  session_id : Uuid;
  name : string;
  email : string;
  birthDate : Date;
}.

#[global] Instance users_row_eq_dec : EqDecision row.
Proof. solve_decision. Defined.
End users.

(** Rows of [meal], after the migration [up]: every column is [notNullable]
    except [user_id], whose [None] is SQL NULL. *)
Module meal.
Record row := mk {
  id : Uuid;
  name : string;
  description : string;
  ate_at : Timestamp;
  is_diet : bool;
  user_id : option Uuid;
}.

#[global] Instance meal_row_eq_dec : EqDecision row.
Proof. solve_decision. Defined.
End meal.

(** ** The streak loop of [GET /metrics/]

    [let bestScore = 0; let score = 0; for (i ...) { ... }]: the two mutable
    counters are the loop state, one [streak_step] per iteration. *)

Record streak := Streak { score : nat; bestScore : nat }.

Definition streak_step (s : streak) (m : meal.row) : streak :=
  let score' := if meal.is_diet m then S (score s) else 0 in
  let bestScore' := if decide (bestScore s < score') then score' else bestScore s in
  Streak score' bestScore'.

Definition streak_loop (sortedMeals : list meal.row) : streak :=
  foldl streak_step (Streak 0 0) sortedMeals.

(** ** What the streak claims speak about

    These follow the words of the specification, not the loop. *)

(** The meal at position [j] is diet-compliant. *)
Definition diet_at (l : list meal.row) (j : nat) : Prop :=
  meal.is_diet <$> l !! j = Some true.

(** Positions [i, i + k) form a run of diet-compliant meals of [l]. *)
Definition diet_run (l : list meal.row) (i k : nat) : Prop :=
  i + k ≤ length l ∧ ∀ j, i ≤ j < i + k → diet_at l j.

(** [n] is the length of the trailing run: the last [n] meals are compliant
    and the one before them, if any, is not. *)
Definition trailing_run (l : list meal.row) (n : nat) : Prop :=
  diet_run l (length l - n) n ∧
  (n < length l → ¬ diet_at l (length l - S n)).

(** [n] is the maximum run-length: some run has length [n], none is longer. *)
Definition max_run (l : list meal.row) (n : nat) : Prop :=
  (∃ i, diet_run l i n) ∧ (∀ i k, diet_run l i k → k ≤ n).

(** Every meal of the sequence is diet-compliant. *)
Definition all_diet (l : list meal.row) : Prop :=
  Forall (λ m, meal.is_diet m = true) l.

Definition none_diet (l : list meal.row) : Prop :=
  Forall (λ m, meal.is_diet m = false) l.


(** ** The store and the knex queries

    [knex('users')] and [knex('meal')] are the two tables of one database;
    rows are kept in insertion order. *)

Record Database := { users_table : list users.row; meal_table : list meal.row }.

Definition empty_database : Database := {| users_table := []; meal_table := [] |}.

(** What a handler may throw: a zod schema refusing its input, or an awaited
    knex query rejecting. *)
Inductive Thrown :=
  | ZodError           (** [schema.parse] on a value the schema refuses *)
  | UndefinedBinding   (** a where-object key whose value is [undefined] *)
  | EmptyUpdate        (** an [update] whose every value is [undefined] *)
  | UniqueViolation    (** an [insert] repeating a primary or unique key *)
  | NotNullViolation.  (** NULL written to a [notNullable] column *)

Inductive settled (A : Type) :=
  | fulfilled (a : A)
  | rejected (e : Thrown).
Arguments fulfilled {A} a.
Arguments rejected {A} e.

(** An [async] computation over the store: the state is threaded, and a
    rejected [await] abandons the rest of the handler. *)
Definition Async (A : Type) : Type := Database → Database * settled A.

Definition resolve {A} (a : A) : Async A := λ db, (db, fulfilled a).

Definition throw {A} (e : Thrown) : Async A := λ db, (db, rejected e).

Definition await {A B} (c : Async A) (k : A → Async B) : Async B :=
  λ db, match c db with
        | (db', fulfilled a) => k a db'
        | (db', rejected e) => (db', rejected e)
        end.

Notation "'let!' x ':=' c 'in' k" := (await c (λ x, k))
  (at level 10, x name, c at level 100, k at level 200, only parsing).

(** A value given for a column in a where-object: the key may be missing
    from the object, present with value [undefined], or present with a
    value. *)
Inductive binding (A : Type) :=
  | absent
  | undefined
  | bound (a : A).
Arguments absent {A}.
Arguments undefined {A}.
Arguments bound {A} a.

(** An optional-chained expression such as [user?.id] used as a binding:
    [None] is JavaScript's [undefined]. *)
Definition binding_of {A} (v : option A) : binding A :=
  match v with Some a => bound a | None => undefined end.

Definition is_defined {A} (b : binding A) : bool :=
  match b with undefined => false | _ => true end.

(** [column = value]; a NULL column equals nothing. *)
Definition binds {A} (b : binding A) (column : option A) : Prop :=
  match b with
  | absent => True
  | undefined => False
  | bound a => column = Some a
  end.

#[global] Instance binds_dec {A} `{EqDecision A} (b : binding A) (column : option A) :
  Decision (binds b column).
Proof. destruct b; simpl; apply _. Defined.

(** Where-objects over [meal], as the handlers build them
    ([{ user_id }], [{ user_id, is_diet }], [{ id, user_id }]). *)
Record meal_where := {
  w_id : binding Uuid;
  w_user_id : binding Uuid;
  w_is_diet : binding bool;
}.

Definition meal_where_defined (w : meal_where) : bool :=
  is_defined (w_id w) && is_defined (w_user_id w) && is_defined (w_is_diet w).

Definition meal_matches (w : meal_where) (m : meal.row) : Prop :=
  binds (w_id w) (Some (meal.id m)) ∧
  binds (w_user_id w) (meal.user_id m) ∧
  binds (w_is_diet w) (Some (meal.is_diet m)).

#[global] Instance meal_matches_dec w m : Decision (meal_matches w m).
Proof. unfold meal_matches. apply _. Defined.

(** knex compiles the query when it is awaited and rejects it when a
    binding is [undefined]; the store is not touched. *)
Definition compiled {A} (defined : bool) (query : Async A) : Async A :=
  if defined then query else throw UndefinedBinding.

(** [knex('users').where('session_id', sessionId)] followed by [.select()]
    or [.first()]. *)
Definition users_where_session_id (sessionId : binding Uuid) : Async (list users.row) :=
  compiled (is_defined sessionId)
    (λ db, (db, fulfilled
      (filter (λ u, binds sessionId (Some (users.session_id u))) (users_table db)))).

Definition first {R} (q : Async (list R)) : Async (option R) :=
  let! rows := q in resolve (head rows).

(** [knex('meal').where(w).select()] *)
Definition meal_where_select (w : meal_where) : Async (list meal.row) :=
  compiled (meal_where_defined w)
    (λ db, (db, fulfilled (filter (meal_matches w) (meal_table db)))).

(** [.count('*', { as: 'total' })] resolves to an array holding one row,
    [[{ total: n }]]. *)
Record count_row := { total : nat }.

Definition count {R} (q : Async (list R)) : Async (list count_row) :=
  let! rows := q in resolve [{| total := length rows |}].

(** Insertion of [m] into rows already ordered by [ate_at], before the
    first row that is not earlier than it. *)
Fixpoint insert_by_ate_at (m : meal.row) (rows : list meal.row) : list meal.row :=
  match rows with
  | [] => [m]
  | r :: rows' =>
      if decide (meal.ate_at m ≤ meal.ate_at r)%Z then m :: r :: rows'
      else r :: insert_by_ate_at m rows'
  end.

(** The order of [.orderBy('ate_at')]. *)
Definition ate_at_le (a b : meal.row) : Prop := (meal.ate_at a ≤ meal.ate_at b)%Z.

(** [.orderBy('ate_at')]: ascending.  SQL leaves the order of rows with
    equal keys open; here they keep their table order. *)
Definition orderBy_ate_at (q : Async (list meal.row)) : Async (list meal.row) :=
  let! rows := q in resolve (foldr insert_by_ate_at [] rows).

(** [knex('meal').where(w).del()]: resolves to the number of rows removed. *)
Definition meal_where_del (w : meal_where) : Async nat :=
  compiled (meal_where_defined w)
    (λ db, ({| users_table := users_table db;
               meal_table := filter (λ m, ¬ meal_matches w m) (meal_table db) |},
            fulfilled (length (filter (meal_matches w) (meal_table db))))).

(** The object given to [.update]: a key whose value is [undefined] is
    dropped by knex, the others are assigned; [ate_at] may be given an
    Invalid Date. *)
Record meal_update := {
  set_name : option string;
  set_description : option string;
  set_is_diet : option bool;
  set_ate_at : option Date;
}.

Definition meal_update_empty (d : meal_update) : bool :=
  match set_name d, set_description d, set_is_diet d, set_ate_at d with
  | None, None, None, None => true
  | _, _, _, _ => false
  end.

Definition apply_update (d : meal_update) (m : meal.row) : meal.row :=
  {| meal.id := meal.id m;
     meal.name := default (meal.name m) (set_name d);
     meal.description := default (meal.description m) (set_description d);
     meal.ate_at := default (meal.ate_at m) (mjoin (set_ate_at d));
     meal.is_diet := default (meal.is_diet m) (set_is_diet d);
     meal.user_id := meal.user_id m |}.

(** [knex('meal').where(w).update(d)]: resolves to the number of rows
    updated (no [returning] clause is given).  [ate_at] is [notNullable]:
    an Invalid Date written to a matching row makes the statement fail, and
    nothing is stored. *)
Definition meal_where_update (w : meal_where) (d : meal_update) : Async nat :=
  if meal_update_empty d then throw EmptyUpdate
  else compiled (meal_where_defined w)
    (λ db, match set_ate_at d, filter (meal_matches w) (meal_table db) with
           | Some None, _ :: _ => (db, rejected NotNullViolation)
           | _, rows =>
               ({| users_table := users_table db;
                   meal_table := (λ m, if decide (meal_matches w m)
                                       then apply_update d m else m) <$> meal_table db |},
                fulfilled (length rows))
           end).

(** The object given to [knex('meal').insert]: [user_id] may be
    [undefined] and [ate_at] an Invalid Date. *)
Record meal_values := {
  ins_id : Uuid;
  ins_user_id : option Uuid;
  ins_name : string;
  ins_description : string;
  ins_is_diet : bool;
  ins_ate_at : Date;
}.

(** [knex('meal').insert(v)]: [ate_at] is [notNullable] and [id] is the
    primary key of the migration; a [user_id] left [undefined] is stored as
    NULL, the column being nullable. *)
Definition meal_insert (v : meal_values) : Async unit :=
  λ db, match ins_ate_at v with
        | None => (db, rejected NotNullViolation)
        | Some ate_at =>
            if decide (ins_id v ∈ meal.id <$> meal_table db)
            then (db, rejected UniqueViolation)
            else ({| users_table := users_table db;
                     meal_table := meal_table db ++
                       [{| meal.id := ins_id v; meal.user_id := ins_user_id v;
                           meal.name := ins_name v;
                           meal.description := ins_description v;
                           meal.is_diet := ins_is_diet v;
                           meal.ate_at := ate_at |}] |}, fulfilled ())
        end.

(** Modelled from the spec: the declaration of the [users] table, whose
    migration is not among the sources; section 6 gives
    [users(id UUID PK, session_id UUID unique, ...)]. *)
Definition users_insert (u : users.row) : Async unit :=
  λ db, if decide (users.id u ∈ users.id <$> users_table db)
        then (db, rejected UniqueViolation)
        else if decide (users.session_id u ∈ users.session_id <$> users_table db)
        then (db, rejected UniqueViolation)
        else ({| users_table := users_table db ++ [u];
                 meal_table := meal_table db |}, fulfilled ()).

(** ** Requests and replies *)

(** Request bodies, as the zod schemas of the handlers parse them; a
    [nullable] field is an [option], [None] being [null]. *)
Module createUserBody.
Record t := mk { name : string; email : string; birthDate : string }.
End createUserBody.

Module createMealBody.
Record t := mk { name : string; description : string; ate_at : string; is_diet : bool }.
End createMealBody.

Module updateMealBody.
Record t := mk {
  name : option string;
  description : option string;
  ate_at : option string;
  is_diet : option bool;
}.
End updateMealBody.

(** A JSON value of a request body, as far as the schemas tell values
    apart. *)
Inductive json :=
  | json_null
  | json_boolean (b : bool)
  | json_string (s : string)
  | json_other.   (** a number, an array or an object *)

(** [request.body] of [PATCH /meal/:id] as sent: each key of the schema is
    absent ([None]) or holds a JSON value. *)
Module updateMealRequest.
Record t := mk {
  name : option json;
  description : option json;
  ate_at : option json;
  is_diet : option json;
}.
End updateMealRequest.

(** [z.string().nullable()]: a string or [null]; an absent key is refused. *)
Definition z_string_nullable (v : option json) : option (option string) :=
  match v with
  | Some json_null => Some None
  | Some (json_string s) => Some (Some s)
  | _ => None
  end.

(** [z.boolean().nullable()] *)
Definition z_boolean_nullable (v : option json) : option (option bool) :=
  match v with
  | Some json_null => Some None
  | Some (json_boolean b) => Some (Some b)
  | _ => None
  end.

(** [updateMealBodySchema.parse(request.body)], [None] when it throws. *)
Definition updateMealBodySchema (body : updateMealRequest.t) : option updateMealBody.t :=
  match z_string_nullable (updateMealRequest.name body),
        z_string_nullable (updateMealRequest.description body),
        z_string_nullable (updateMealRequest.ate_at body),
        z_boolean_nullable (updateMealRequest.is_diet body) with
  | Some name, Some description, Some ate_at, Some is_diet =>
      Some {| updateMealBody.name := name; updateMealBody.description := description;
              updateMealBody.ate_at := ate_at; updateMealBody.is_diet := is_diet |}
  | _, _, _, _ => None
  end.

(** [schema.parse(input)] inside a handler. *)
Definition parse {A} (parsed : option A) : Async A :=
  match parsed with Some a => resolve a | None => throw ZodError end.

Record CookieOptions := { path : string; maxAge : Z }.

Record Cookie := {
  cookie_name : string;
  cookie_value : string;
  cookie_options : CookieOptions;
}.

(** The body of [GET /metrics/]:
    [{ mealsCount, inDiet, outDiet, score: { bestScore } }]. *)
Module metrics.
Record score_t := mk_score { bestScore : nat }.
Record t := mk {
  mealsCount : list count_row;
  inDiet : list count_row;
  outDiet : list count_row;
  score : score_t;
}.
End metrics.

(** What the variable [meal] of a handler may hold: the result of
    [.first()] (a row or [undefined]) or the result of [.update()] (a
    number). *)
Inductive js_meal :=
  | js_undefined
  | js_row (m : meal.row)
  | js_number (n : nat).

Definition js_of_first (meal : option meal.row) : js_meal :=
  match meal with Some m => js_row m | None => js_undefined end.

Inductive Payload :=
  | no_body
  | users_body (users : list users.row)       (** [{ users }] *)
  | metrics_body (m : metrics.t)
  | meals_body (meals : list meal.row)        (** [{ meals }] *)
  | meal_body (meal : js_meal)                (** [{ meal }] *)
  | error_body (e : Thrown)
  | unauthorized_body.

Record Reply := {
  statusCode : nat;
  setCookie : option Cookie;
  payload : Payload;
}.

(** [reply.status(code).send()] *)
Definition send_status (code : nat) (cookie : option Cookie) : Reply :=
  {| statusCode := code; setCookie := cookie; payload := no_body |}.

(** [return obj] from a handler: fastify replies 200 with the object. *)
Definition send_object (body : Payload) : Reply :=
  {| statusCode := 200; setCookie := None; payload := body |}.

(** ** JavaScript truthiness, where the update handler relies on it *)

Definition truthy_string (s : string) : bool :=
  match s with EmptyString => false | String _ _ => true end.

Definition truthy_boolean (b : bool) : bool := b.

(** [a || b] for a nullable [a]: [a] when it is truthy, else [b]. *)
Definition or_else {A} (truthy : A → bool) (a : option A) (b : option A) : option A :=
  match a with
  | Some v => if truthy v then Some v else b
  | None => b
  end.

(** ** The handlers of [usersRoutes]

    A handler takes what it reads from the request: the [sessionId] cookie
    ([None] when the request carries none), the values its [randomUUID()]
    calls return, in call order, the [:id] param and the body of the PATCH
    route as sent, and the bodies of the two POST routes as their schemas
    yield them. *)

Section usersRoutes.
(** [new Date(s)] *)
Variable newDate : string → Date.

(** The check of [z.string().uuid()], which belongs to zod. *)
Variable uuid : string → bool.

(** [getMealParamsSchema.parse(request.params)], [None] when it throws. *)
Definition getMealParamsSchema (id : string) : option Uuid :=
  if uuid id then Some id else None.

Definition session_user (sessionId : option Uuid) : Async (option users.row) :=
  first (users_where_session_id (binding_of sessionId)).

(** [user?.id] *)
Definition user_id_of (user : option users.row) : option Uuid := users.id <$> user.

Definition where_user_id (user : option users.row) : meal_where :=
  {| w_id := absent; w_user_id := binding_of (user_id_of user); w_is_diet := absent |}.

Definition where_user_id_is_diet (user : option users.row) (flag : bool) : meal_where :=
  {| w_id := absent; w_user_id := binding_of (user_id_of user); w_is_diet := bound flag |}.

Definition where_id_user_id (id : Uuid) (user : option users.row) : meal_where :=
  {| w_id := bound id; w_user_id := binding_of (user_id_of user); w_is_diet := absent |}.

(** [reply.cookie('sessionId', sessionId, { path: '/', maxAge: ... })] *)
Definition session_cookie (sessionId : Uuid) : Cookie :=
  {| cookie_name := "sessionId"; cookie_value := sessionId;
     cookie_options := {| path := "/"; maxAge := 1000 * 60 * 60 * 24 * 7 |} |}.

(** [POST /] *)
Definition post_users (sessionId id : Uuid) (body : createUserBody.t) : Async Reply :=
  let date := newDate (createUserBody.birthDate body) in
  let cookie := session_cookie sessionId in
  let! _ := users_insert
              {| users.id := id; users.session_id := sessionId;
                 users.name := createUserBody.name body;
                 users.email := createUserBody.email body;
                 users.birthDate := date |} in
  resolve (send_status 201 (Some cookie)).

(** [GET /] *)
Definition get_users (sessionId : option Uuid) : Async Reply :=
  let! users := users_where_session_id (binding_of sessionId) in
  resolve (send_object (users_body users)).

(** The end of [GET /metrics/]: the loop over [sortedMeals] and the
    object returned, [{ mealsCount, inDiet, outDiet, score: { bestScore: score } }]. *)
Definition metrics_of (mealsCount inDiet outDiet : list count_row)
    (sortedMeals : list meal.row)
  : metrics.t :=
  let s := streak_loop sortedMeals in
  {| metrics.mealsCount := mealsCount; metrics.inDiet := inDiet;
     metrics.outDiet := outDiet;
     metrics.score := {| metrics.bestScore := score s |} |}.

(** [GET /metrics/] *)
Definition get_metrics (sessionId : option Uuid) : Async Reply :=
  let! user := session_user sessionId in
  let! mealsCount := count (meal_where_select (where_user_id user)) in
  let! inDiet := count (meal_where_select (where_user_id_is_diet user true)) in
  let! outDiet := count (meal_where_select (where_user_id_is_diet user false)) in
  let! sortedMeals := orderBy_ate_at (meal_where_select (where_user_id user)) in
  resolve (send_object (metrics_body (metrics_of mealsCount inDiet outDiet sortedMeals))).

(** [GET /meal/] *)
Definition get_meals (sessionId : option Uuid) : Async Reply :=
  let! user := session_user sessionId in
  let! meals := meal_where_select (where_user_id user) in
  resolve (send_object (meals_body meals)).

(** [GET /meal/:id] *)
Definition get_meal (sessionId : option Uuid) (id : string) : Async Reply :=
  let! user := session_user sessionId in
  let! id := parse (getMealParamsSchema id) in
  let! meal := first (meal_where_select (where_id_user_id id user)) in
  resolve (send_object (meal_body (js_of_first meal))).

(** [DELETE /meal/:id] *)
Definition delete_meal (sessionId : option Uuid) (id : string) : Async Reply :=
  let! user := session_user sessionId in
  let! id := parse (getMealParamsSchema id) in
  let! _ := meal_where_del (where_id_user_id id user) in
  resolve (send_status 204 None).

(** The object built for [.update] from the body and the row read
    before ([meal?.name] and the like are [undefined] without a row). *)
Definition merged_update (body : updateMealBody.t) (meal : option meal.row) : meal_update :=
  {| set_name := or_else truthy_string (updateMealBody.name body) (meal.name <$> meal);
     set_description :=
       or_else truthy_string (updateMealBody.description body) (meal.description <$> meal);
     set_is_diet :=
       or_else truthy_boolean (updateMealBody.is_diet body) (meal.is_diet <$> meal);
     set_ate_at :=
       match updateMealBody.ate_at body with
       | Some s => if truthy_string s then Some (newDate s)
                   else Some ∘ meal.ate_at <$> meal
       | None => Some ∘ meal.ate_at <$> meal
       end |}.

(** [PATCH /meal/:id], once the body and the params are parsed *)
Definition update_meal (sessionId : option Uuid) (id : Uuid) (body : updateMealBody.t)
  : Async Reply :=
  let! user := session_user sessionId in
  let! meal := first (meal_where_select (where_id_user_id id user)) in
  let! meal := meal_where_update (where_id_user_id id user) (merged_update body meal) in
  resolve (send_object (meal_body (js_number meal))).

(** [PATCH /meal/:id] *)
Definition patch_meal (sessionId : option Uuid) (id : string)
    (request_body : updateMealRequest.t) : Async Reply :=
  let! body := parse (updateMealBodySchema request_body) in
  let! id := parse (getMealParamsSchema id) in
  update_meal sessionId id body.

(** [POST /meal/] *)
Definition post_meal (sessionId : option Uuid) (id : Uuid) (body : createMealBody.t)
  : Async Reply :=
  let date := newDate (createMealBody.ate_at body) in
  let! user := session_user sessionId in
  let! _ := meal_insert
              {| ins_id := id; ins_user_id := user_id_of user;
                 ins_name := createMealBody.name body;
                 ins_description := createMealBody.description body;
                 ins_is_diet := createMealBody.is_diet body;
                 ins_ate_at := date |} in
  resolve (send_status 201 None).

(** A request that reaches a handler. *)
Inductive Request :=
  | POST_users (sessionId id : Uuid) (body : createUserBody.t)
  | GET_users (sessionId : option Uuid)
  | GET_metrics (sessionId : option Uuid)
  | GET_meals (sessionId : option Uuid)
  | GET_meal (sessionId : option Uuid) (id : string)
  | DELETE_meal (sessionId : option Uuid) (id : string)
  | PATCH_meal (sessionId : option Uuid) (id : string) (body : updateMealRequest.t)
  | POST_meal (sessionId : option Uuid) (id : Uuid) (body : createMealBody.t).

Definition handler (req : Request) : Async Reply :=
  match req with
  | POST_users sessionId id body => post_users sessionId id body
  | GET_users sessionId => get_users sessionId
  | GET_metrics sessionId => get_metrics sessionId
  | GET_meals sessionId => get_meals sessionId
  | GET_meal sessionId id => get_meal sessionId id
  | DELETE_meal sessionId id => delete_meal sessionId id
  | PATCH_meal sessionId id body => patch_meal sessionId id body
  | POST_meal sessionId id body => post_meal sessionId id body
  end.

(** Modelled from the spec: the [preHandler] [checkSessionIdExists] of every
    route but [POST /], which is not among the sources.  Sections 4.1 and 7
    give it: a missing-session failure, "absent or unresolvable session
    cookie", is an authorization error that halts the request before the
    handler runs.  The cookie is resolved as the handlers resolve it, by
    equality with a stored [session_id]. *)
Definition checkSessionIdExists (db : Database) (sessionId : option Uuid) : bool :=
  match sessionId with
  | Some s =>
      match filter (λ u, users.session_id u = s) (users_table db) with
      | [] => false
      | _ :: _ => true
      end
  | None => false
  end.

(** The cookie a guarded route hands to its [preHandler]. *)
Definition guarded_cookie (req : Request) : option (option Uuid) :=
  match req with
  | POST_users _ _ _ => None
  | GET_users sessionId | GET_metrics sessionId | GET_meals sessionId
  | GET_meal sessionId _ | DELETE_meal sessionId _ | PATCH_meal sessionId _ _
  | POST_meal sessionId _ _ => Some sessionId
  end.

Definition preHandler_passes (db : Database) (req : Request) : bool :=
  match guarded_cookie req with
  | Some sessionId => checkSessionIdExists db sessionId
  | None => true
  end.

(** Serving a request: the [preHandler], then the handler; a handler that
    throws is answered 500 by fastify. *)
Definition serve (req : Request) (db : Database) : Database * Reply :=
  if preHandler_passes db req then
    match handler req db with
    | (db', fulfilled reply) => (db', reply)
    | (db', rejected e) =>
        (db', {| statusCode := 500; setCookie := None; payload := error_body e |})
    end
  else (db, {| statusCode := 401; setCookie := None; payload := unauthorized_body |}).

(** The store states the routes can produce from the migrated, empty
    tables. *)
Inductive reachable : Database → Prop :=
  | reachable_empty : reachable empty_database
  | reachable_serve db req : reachable db → reachable (serve req db).1.
End usersRoutes.

(** ** Vocabulary of the store claims *)

(** The request's cookie [sessionId] resolves to the row [user]: this is
    what the handlers' first query yields. *)
Definition resolves_to (db : Database) (sessionId : Uuid) (user : users.row) : Prop :=
  session_user (Some sessionId) db = (db, fulfilled (Some user)).

(** The primary key of the [meal] migration: no two rows share an [id]. *)
Definition meal_primary_key (db : Database) : Prop :=
  NoDup (meal.id <$> meal_table db).

(** The row an update-by-id or delete-by-id of this caller aims at: its
    [id] is the given one and its [user_id] is the id of the caller's row. *)
Definition targeted (db : Database) (sessionId : option Uuid) (id : Uuid)
    (m : meal.row) : Prop :=
  ∃ user, session_user sessionId db = (db, fulfilled (Some user)) ∧
          meal.id m = id ∧ meal.user_id m = Some (users.id user).


(** A field of the request body that is [null] or false-equivalent. *)
Definition falsy (v : option json) : Prop :=
  v = Some json_null ∨ v = Some (json_string "") ∨ v = Some (json_boolean false).

(** Every meal row has an owning user row. *)
Definition every_meal_owned (db : Database) : Prop :=
  ∀ m, m ∈ meal_table db →
    ∃ user, user ∈ users_table db ∧ meal.user_id m = Some (users.id user).

(** Every meal row that names an owner names an existing user row. *)
Definition owners_exist (db : Database) : Prop :=
  ∀ m owner, m ∈ meal_table db → meal.user_id m = Some owner →
    owner ∈ users.id <$> users_table db.

(** The ways a served request changes the store: not at all, by one more
    user row, by removing meal rows, by rewriting meal rows in place
    keeping their [id] and [user_id], or by one more meal row with a fresh
    [id], owned by an existing user or by nobody. *)
Inductive store_step (db : Database) : Database → Prop :=
  | step_none : store_step db db
  | step_signup u :
      store_step db {| users_table := users_table db ++ [u];
                       meal_table := meal_table db |}
  | step_delete (P : meal.row → Prop) `{∀ r, Decision (P r)} :
      store_step db {| users_table := users_table db;
                       meal_table := filter P (meal_table db) |}
  | step_update (g : meal.row → meal.row) :
      (∀ r, meal.id (g r) = meal.id r ∧ meal.user_id (g r) = meal.user_id r) →
      store_step db {| users_table := users_table db;
                       meal_table := g <$> meal_table db |}
  | step_create m :
      meal.id m ∉ meal.id <$> meal_table db →
      (meal.user_id m = None ∨
       ∃ user, user ∈ users_table db ∧ meal.user_id m = Some (users.id user)) →
      store_step db {| users_table := users_table db;
                       meal_table := meal_table db ++ [m] |}.

(** The [ate_at] field of an update body is one the handler can store:
    [null], the empty string, or a string [new Date] can parse. *)
Definition ate_at_parses (newDate : string → Date) (body : updateMealRequest.t) : Prop :=
  ∀ s, updateMealRequest.ate_at body = Some (json_string s) → s ≠ "" →
    is_Some (newDate s).

(** Modelled from the spec: the primary key of [users] (section 6,
    [users(id UUID PK, ...)]): no two rows share an [id]. *)
Definition users_primary_key (db : Database) : Prop :=
  NoDup (users.id <$> users_table db).

(** ** Sample data

    Stand-ins for the two library functions, two registered users and one
    meal each, used where a statement is run on a concrete store. *)

Definition is_hex (c : ascii) : bool :=
  let n := nat_of_ascii c in
  (48 <=? n) && (n <=? 57) || (65 <=? n) && (n <=? 70) || (97 <=? n) && (n <=? 102).

Fixpoint uuid_chars (i : nat) (s : string) : bool :=
  match s with
  | EmptyString => i =? 36
  | String c s' =>
      (if (i =? 8) || (i =? 13) || (i =? 18) || (i =? 23)
       then bool_decide (c = "-"%char) else is_hex c)
      && uuid_chars (S i) s'
  end.

(** The shape of a UUID, five groups of 8, 4, 4, 4 and 12 hexadecimal
    digits: a stand-in for zod's check on the identifiers used below. *)
Definition uuid_shape (s : string) : bool := uuid_chars 0 s.

Definition digit (c : ascii) : option Z :=
  let n := nat_of_ascii c in
  if (48 <=? n) && (n <=? 57) then Some (Z.of_nat (n - 48)) else None.

Fixpoint digits (acc : Z) (s : string) : option Z :=
  match s with
  | EmptyString => Some acc
  | String c s' => match digit c with
                   | Some d => digits (10 * acc + d)%Z s'
                   | None => None
                   end
  end.

(** Days from 1970-01-01 to the given day of the proleptic Gregorian
    calendar. *)
Definition days_from_civil (y m d : Z) : Z :=
  let y' := (if m <=? 2 then y - 1 else y)%Z in
  let era := (y' / 400)%Z in
  let yoe := (y' - era * 400)%Z in
  let doy := ((153 * (m + (if 2 <? m then -3 else 9)) + 2) / 5 + d - 1)%Z in
  let doe := (yoe * 365 + yoe / 4 - yoe / 100 + doy)%Z in
  (era * 146097 + doe - 719468)%Z.

(** [new Date(s)] on the date-only form [YYYY-MM-DD], which is midnight
    UTC of that day; a stand-in for [new Date] on the dates used below,
    answering Invalid Date on every other form. *)
Definition iso_date (s : string) : Date :=
  if (String.length s =? 10)
     && bool_decide (String.get 4 s = Some "-"%char)
     && bool_decide (String.get 7 s = Some "-"%char)
  then
    match digits 0 (String.substring 0 4 s), digits 0 (String.substring 5 2 s),
          digits 0 (String.substring 8 2 s) with
    | Some y, Some m, Some d =>
        if ((1 <=? m) && (m <=? 12) && (1 <=? d) && (d <=? 31))%Z
        then Some (days_from_civil y m d * 86400000)%Z
        else None
    | _, _, _ => None
    end
  else None.

Definition ann_id : Uuid := "0a000000-0000-4000-8000-000000000001".
Definition ann_session : Uuid := "0a000000-0000-4000-8000-0000000000aa".
Definition bob_id : Uuid := "0b000000-0000-4000-8000-000000000002".
Definition bob_session : Uuid := "0b000000-0000-4000-8000-0000000000bb".
Definition cy_id : Uuid := "0c000000-0000-4000-8000-000000000003".
Definition cy_session : Uuid := "0c000000-0000-4000-8000-0000000000cc".
Definition nobody_session : Uuid := "0d000000-0000-4000-8000-0000000000dd".
Definition salad_id : Uuid := "5a1ad000-0000-4000-8000-000000000001".
Definition burger_id : Uuid := "b0000000-0000-4000-8000-000000000002".
Definition soup_id : Uuid := "50000000-0000-4000-8000-000000000003".

Definition ann : users.row :=
  {| users.id := ann_id; users.session_id := ann_session; users.name := "Ann";
     users.email := "ann@example.org"; users.birthDate := Some 631152000000%Z |}.

Definition bob : users.row :=
  {| users.id := bob_id; users.session_id := bob_session; users.name := "Bob";
     users.email := "bob@example.org"; users.birthDate := Some 662688000000%Z |}.

Definition salad : meal.row :=
  {| meal.id := salad_id; meal.name := "salad"; meal.description := "green";
     meal.ate_at := 1701388800000%Z; meal.is_diet := true; meal.user_id := Some ann_id |}.

Definition burger : meal.row :=
  {| meal.id := burger_id; meal.name := "burger"; meal.description := "double";
     meal.ate_at := 1701475200000%Z; meal.is_diet := false;
     meal.user_id := Some bob_id |}.

Definition sample_db : Database :=
  {| users_table := [ann; bob]; meal_table := [salad; burger] |}.

(** Ann's meals of one week, out of [ate_at] order in the table: two
    compliant meals and then a burger. *)
Definition sample_week : Database :=
  {| users_table := [ann; bob];
     meal_table :=
       [ {| meal.id := burger_id; meal.name := "burger"; meal.description := "late";
            meal.ate_at := 1701561600000%Z; meal.is_diet := false;
            meal.user_id := Some ann_id |};
         {| meal.id := salad_id; meal.name := "salad"; meal.description := "green";
            meal.ate_at := 1701388800000%Z; meal.is_diet := true;
            meal.user_id := Some ann_id |};
         {| meal.id := soup_id; meal.name := "soup"; meal.description := "hot";
            meal.ate_at := 1701475200000%Z; meal.is_diet := true;
            meal.user_id := Some ann_id |} ] |}.

(** An update body with a [null], an empty, a truthy and a [false] field. *)
Definition sample_patch : updateMealRequest.t :=
  {| updateMealRequest.name := Some json_null;
     updateMealRequest.description := Some (json_string "");
     updateMealRequest.ate_at := Some (json_string "2024-01-01");
     updateMealRequest.is_diet := Some (json_boolean false) |}.

(** What [updateMealBodySchema] makes of [sample_patch]. *)
Definition sample_patch_parsed : updateMealBody.t :=
  {| updateMealBody.name := None; updateMealBody.description := Some "";
     updateMealBody.ate_at := Some "2024-01-01";
     updateMealBody.is_diet := Some false |}.

Definition sample_signup : createUserBody.t :=
  {| createUserBody.name := "Cy"; createUserBody.email := "cy@example.org";
     createUserBody.birthDate := "1990-05-05" |}.

Definition sample_meal : createMealBody.t :=
  {| createMealBody.name := "soup"; createMealBody.description := "hot";
     createMealBody.ate_at := "2024-01-02"; createMealBody.is_diet := true |}.

(** A meal body and an update body whose [ate_at] is not a date. *)
Definition sample_meal_undated : createMealBody.t :=
  {| createMealBody.name := "soup"; createMealBody.description := "hot";
     createMealBody.ate_at := "yesterday"; createMealBody.is_diet := true |}.

Definition sample_patch_undated : updateMealRequest.t :=
  {| updateMealRequest.name := Some (json_string "caesar salad");
     updateMealRequest.description := Some json_null;
     updateMealRequest.ate_at := Some (json_string "yesterday");
     updateMealRequest.is_diet := Some json_null |}.

Definition meal_of (flag : bool) : meal.row :=
  {| meal.id := ""; meal.name := ""; meal.description := ""; meal.ate_at := 0%Z;
     meal.is_diet := flag; meal.user_id := None |}.

(** ** Vocabulary of the further properties *)

(** The row [POST /] inserts. *)
Definition new_user_row (newDate : string → Date) (sessionId id : Uuid)
    (body : createUserBody.t) : users.row :=
  {| users.id := id; users.session_id := sessionId;
     users.name := createUserBody.name body;
     users.email := createUserBody.email body;
     users.birthDate := newDate (createUserBody.birthDate body) |}.

(** The row [POST /meal/] inserts for the owner [user?.id], [ate_at] being
    what [new Date] made of the body's [ate_at]. *)
Definition new_meal_row (ate_at : Timestamp) (owner : option Uuid) (id : Uuid)
    (body : createMealBody.t) : meal.row :=
  {| meal.id := id; meal.user_id := owner;
     meal.name := createMealBody.name body;
     meal.description := createMealBody.description body;
     meal.is_diet := createMealBody.is_diet body;
     meal.ate_at := ate_at |}.

(** The rows of [meal] owned by the user with id [owner]. *)
Definition meals_of (owner : Uuid) (db : Database) : list meal.row :=
  filter (λ m, meal.user_id m = Some owner) (meal_table db).

(** The number of diet-compliant meals of a sequence. *)
Definition diet_count (l : list meal.row) : nat :=
  length (filter (λ m, meal.is_diet m = true) l).

(** The cookie [sessionId] matches no row of [users]. *)
Definition matches_no_user (db : Database) (sessionId : Uuid) : Prop :=
  session_user (Some sessionId) db = (db, fulfilled None).

(** A store holding a meal row without an owner. *)
Definition ownerless_soup : meal.row :=
  {| meal.id := soup_id; meal.name := "soup"; meal.description := "hot";
     meal.ate_at := 1704153600000%Z; meal.is_diet := true; meal.user_id := None |}.

Definition ownerless_db : Database :=
  {| users_table := [ann]; meal_table := [salad; ownerless_soup] |}.

(** * Proofs *)

(** ** Lemmas on the streak loop *)

Section streak_facts.
Implicit Types (l : list meal.row) (m : meal.row).

Lemma streak_loop_snoc l m :
  streak_loop (l ++ [m]) = streak_step (streak_loop l) m.
Proof. unfold streak_loop. by rewrite foldl_app. Qed.

Lemma diet_at_app_l l m j : j < length l → diet_at (l ++ [m]) j ↔ diet_at l j.
Proof. intros Hj. unfold diet_at. by rewrite lookup_app_l. Qed.

Lemma diet_at_last l m : diet_at (l ++ [m]) (length l) ↔ meal.is_diet m = true.
Proof.
  unfold diet_at. rewrite lookup_app_r by lia.
  replace (length l - length l) with 0 by lia. simpl.
  split; congruence.
Qed.

(** A run of [l] is still a run after one more meal is appended. *)
Lemma diet_run_app_l l m i k : diet_run l i k → diet_run (l ++ [m]) i k.
Proof.
  intros [Hle Hrun]. split.
  - rewrite length_app. simpl. lia.
  - intros j Hj. apply diet_at_app_l; [lia | by apply Hrun].
Qed.

(** A run of [l ++ [m]] that stops before [m] is a run of [l]. *)
Lemma diet_run_app_inv l m i k :
  i + k ≤ length l → diet_run (l ++ [m]) i k → diet_run l i k.
Proof.
  intros Hle [_ Hrun]. split; [done |].
  intros j Hj. apply (diet_at_app_l l m); [lia | by apply Hrun].
Qed.

(** A compliant run that reaches the end is no longer than the trailing run. *)
Lemma trailing_run_longest l n i k :
  trailing_run l n → diet_run l i k → i + k = length l → k ≤ n.
Proof.
  intros [[Hn _] Hstop] [_ Hrun] Hend.
  destruct (decide (k ≤ n)) as [|Hgt]; [done | exfalso].
  apply Hstop; [lia |]. apply Hrun. lia.
Qed.

Lemma trailing_run_snoc_diet l m n :
  meal.is_diet m = true → trailing_run l n → trailing_run (l ++ [m]) (S n).
Proof.
  intros Hm [[Hle Hrun] Hstop]. unfold trailing_run, diet_run.
  rewrite !length_app. simpl. split; [split |].
  - lia.
  - intros j Hj. destruct (decide (j = length l)) as [->|Hne].
    + by apply diet_at_last.
    + apply diet_at_app_l; [lia |]. apply Hrun. lia.
  - intros Hlt Habs. apply Hstop; [lia |].
    replace (length l + 1 - S (S n)) with (length l - S n) in Habs by lia.
    apply (diet_at_app_l l m); [lia | done].
Qed.

Lemma trailing_run_snoc_off l m :
  meal.is_diet m = false → trailing_run (l ++ [m]) 0.
Proof.
  intros Hm. unfold trailing_run, diet_run. rewrite !length_app. simpl.
  split; [split; [lia | intros j Hj; lia] |].
  intros _ Habs.
  replace (length l + 1 - 1) with (length l) in Habs by lia.
  apply diet_at_last in Habs. congruence.
Qed.

(** The running counter is the length of the trailing run. *)
Lemma score_trailing_run l : trailing_run l (score (streak_loop l)).
Proof.
  induction l as [|m l IH] using rev_ind.
  - unfold streak_loop. simpl.
    split; [split; [simpl; lia | intros j Hj; lia] | simpl; lia].
  - rewrite streak_loop_snoc. unfold streak_step. simpl.
    destruct (meal.is_diet m) eqn:Hm.
    + by apply trailing_run_snoc_diet.
    + by apply trailing_run_snoc_off.
Qed.

Lemma bestScore_ge_score l : score (streak_loop l) ≤ bestScore (streak_loop l).
Proof.
  destruct l as [|m l _] using rev_ind; [done |].
  rewrite streak_loop_snoc. unfold streak_step. simpl.
  case_decide; lia.
Qed.

(** The best counter is the maximum run-length. *)
Lemma bestScore_max_run l : max_run l (bestScore (streak_loop l)).
Proof.
  induction l as [|m l IH] using rev_ind.
  - unfold streak_loop. simpl. split.
    + exists 0. split; [simpl; lia | intros j Hj; lia].
    + intros i k [Hle _]. simpl in *. lia.
  - pose proof (score_trailing_run (l ++ [m])) as Htrail.
    rewrite streak_loop_snoc in *. destruct IH as [[i0 Hrun0] Hmax].
    unfold streak_step in *. simpl in *.
    set (sc := if meal.is_diet m then S (score (streak_loop l)) else 0) in *.
    split.
    + case_decide.
      * eexists. apply Htrail.
      * exists i0. by apply diet_run_app_l.
    + intros i k Hrun.
      assert (k ≤ bestScore (streak_loop l) ∨ k ≤ sc) as Hk.
      { destruct (decide (i + k ≤ length l)) as [Hin|Hout].
        - left. eapply Hmax, diet_run_app_inv; eauto.
        - right. eapply trailing_run_longest; eauto.
          destruct Hrun as [Hle _]. rewrite length_app in *. simpl in *. lia. }
      case_decide; lia.
Qed.

Lemma max_run_unique l n n' : max_run l n → max_run l n' → n = n'.
Proof.
  intros [[i Hi] Hn] [[i' Hi'] Hn'].
  apply Hn' in Hi. apply Hn in Hi'. lia.
Qed.

Lemma all_diet_run l : all_diet l ↔ diet_run l 0 (length l).
Proof.
  unfold all_diet, diet_run, diet_at. rewrite Forall_lookup. split.
  - intros Hall. split; [lia |]. intros j Hj.
    destruct (lookup_lt_is_Some_2 l j) as [m Hm]; [lia |].
    rewrite Hm. simpl. f_equal. eauto.
  - intros [_ Hrun] j m Hm. specialize (Hrun j).
    rewrite Hm in Hrun. simpl in Hrun.
    apply lookup_lt_Some in Hm as Hlt.
    assert (Some (meal.is_diet m) = Some true) by (apply Hrun; lia).
    congruence.
Qed.
End streak_facts.

(** ** Lemmas on the queries *)

Ltac unfold_queries :=
  unfold session_user, first, count, orderBy_ate_at, meal_where_select,
    meal_where_del, meal_where_update, users_where_session_id, compiled,
    await, resolve, throw in *.

Section query_facts.
Implicit Types (db : Database) (m r : meal.row) (user : users.row).

(** What [resolves_to] says about the rows of [users]. *)
Lemma resolves_to_head db sessionId user :
  resolves_to db sessionId user ↔
  head (filter (λ u, Some (users.session_id u) = Some sessionId) (users_table db))
    = Some user.
Proof.
  unfold resolves_to. unfold_queries. simpl. split.
  - intros H. by simplify_eq.
  - intros H. unfold binds. by rewrite H.
Qed.

Lemma session_user_resolved db sessionId user :
  resolves_to db sessionId user →
  session_user (Some sessionId) db = (db, fulfilled (Some user)).
Proof. done. Qed.

Lemma matches_id_user_id id user r :
  meal_matches (where_id_user_id id (Some user)) r ↔
  meal.id r = id ∧ meal.user_id r = Some (users.id user).
Proof.
  unfold meal_matches, where_id_user_id. simpl. split.
  - intros (Hid & Huser & _). split; congruence.
  - intros [<- Huser]. by rewrite Huser.
Qed.

Lemma filter_none {A} (P : A → Prop) `{∀ x, Decision (P x)} (l : list A) :
  Forall (λ x, ¬ P x) l → filter P l = [].
Proof.
  induction 1 as [|x l Hx _ IH]; [done |]. by rewrite filter_cons_False.
Qed.

Lemma filter_all {A} (P : A → Prop) `{∀ x, Decision (P x)} (l : list A) :
  Forall P l → filter P l = l.
Proof.
  induction 1 as [|x l Hx _ IH]; [done |]. rewrite filter_cons_True by done.
  by rewrite IH.
Qed.

(** Under the primary key, a row is known by its [id]. *)
Lemma primary_key_row db m r :
  meal_primary_key db → m ∈ meal_table db → r ∈ meal_table db →
  meal.id r = meal.id m → r = m.
Proof.
  unfold meal_primary_key. intros Hpk Hm Hr Hid.
  apply list_elem_of_lookup in Hm as [i Hi].
  apply list_elem_of_lookup in Hr as [j Hj].
  assert (i = j) as ->; [| congruence].
  eapply (NoDup_lookup _ _ _ (meal.id m) Hpk);
    rewrite list_lookup_fmap; [rewrite Hi | rewrite Hj]; simpl; congruence.
Qed.

(** Under the primary key at most one row matches an [id]. *)
Lemma own_row_only db id user m :
  meal_primary_key db → m ∈ meal_table db →
  meal.id m = id → meal.user_id m = Some (users.id user) →
  filter (meal_matches (where_id_user_id id (Some user))) (meal_table db) = [m].
Proof.
  unfold meal_primary_key. intros Hpk Hm Hid Hown.
  induction (meal_table db) as [|r rows IH]; [by apply elem_of_nil in Hm |].
  rewrite fmap_cons in Hpk. apply NoDup_cons in Hpk as [Hfresh Hpk].
  apply elem_of_cons in Hm as [->|Hm].
  - rewrite filter_cons_True by by apply matches_id_user_id.
    f_equal. apply filter_none, Forall_forall.
    intros r' Hr' Hmatch.
    apply matches_id_user_id in Hmatch as [Hrid _].
    apply Hfresh. apply list_elem_of_fmap. exists r'. split; [congruence | done].
  - rewrite filter_cons_False; [by apply IH |].
    intros Hmatch. apply matches_id_user_id in Hmatch as [Hrid _].
    apply Hfresh. apply list_elem_of_fmap. exists m. split; [congruence | done].
Qed.

(** No row matches when the row holding the [id] belongs to someone else. *)
Lemma foreign_row_no_match db id user m :
  meal_primary_key db → m ∈ meal_table db →
  meal.id m = id → meal.user_id m ≠ Some (users.id user) →
  Forall (λ r, ¬ meal_matches (where_id_user_id id (Some user)) r) (meal_table db).
Proof.
  intros Hpk Hm Hid Hown. apply Forall_forall. intros r Hr Hmatch.
  apply matches_id_user_id in Hmatch as [Hrid Hruser].
  assert (r = m) as -> by (eapply primary_key_row; eauto; congruence).
  done.
Qed.

Lemma update_none (w : meal_where) (d : meal_update) (l : list meal.row) :
  Forall (λ r, ¬ meal_matches w r) l →
  (λ r, if decide (meal_matches w r) then apply_update d r else r) <$> l = l.
Proof.
  induction 1 as [|x l Hx _ IH]; [done |]. rewrite fmap_cons, IH.
  by rewrite decide_False.
Qed.

(** With a row read before, the object given to [.update] assigns every
    column. *)
Lemma merged_update_not_empty newDate body m :
  meal_update_empty (merged_update newDate body (Some m)) = false.
Proof.
  unfold meal_update_empty, merged_update. simpl.
  destruct (or_else truthy_string (updateMealBody.name body) (Some (meal.name m)))
    eqn:Hname; [done |].
  unfold or_else in Hname. repeat case_match; discriminate.
Qed.
End query_facts.

(** ** What the meal handlers do to the store *)

Section handler_facts.
Variable newDate : string → Date.
Variable uuid : string → bool.
Implicit Types (db : Database) (m r : meal.row) (user : users.row).

Lemma database_eta db :
  {| users_table := users_table db; meal_table := meal_table db |} = db.
Proof. by destruct db. Qed.

(** The first query of a handler either rejects or yields the user row,
    if any; the store is as before. *)
Lemma session_user_cases sessionId db :
  session_user sessionId db = (db, rejected UndefinedBinding) ∨
  ∃ found, session_user sessionId db = (db, fulfilled found).
Proof. destruct sessionId; unfold_queries; simpl; eauto. Qed.

(** [GET /meal/:id] for a resolved caller. *)
Lemma get_meal_resolved db sessionId user id :
  resolves_to db sessionId user →
  get_meal uuid (Some sessionId) id db =
    if uuid id
    then (db, fulfilled (send_object (meal_body (js_of_first
           (head (filter (meal_matches (where_id_user_id id (Some user)))
                         (meal_table db)))))))
    else (db, rejected ZodError).
Proof.
  intros Hu. unfold get_meal, await at 1. rewrite (session_user_resolved _ _ _ Hu).
  unfold getMealParamsSchema. by destruct (uuid id); unfold_queries.
Qed.

(** [DELETE /meal/:id] for a resolved caller. *)
Lemma delete_meal_resolved db sessionId user id :
  resolves_to db sessionId user →
  delete_meal uuid (Some sessionId) id db =
    if uuid id
    then ({| users_table := users_table db;
             meal_table := filter (λ r, ¬ meal_matches (where_id_user_id id (Some user)) r)
                                  (meal_table db) |},
          fulfilled (send_status 204 None))
    else (db, rejected ZodError).
Proof.
  intros Hu. unfold delete_meal, await at 1. rewrite (session_user_resolved _ _ _ Hu).
  unfold getMealParamsSchema. by destruct (uuid id); unfold_queries.
Qed.

(** [.update] on a where-object without [undefined] bindings. *)
Lemma meal_where_update_defined (w : meal_where) (d : meal_update) db :
  meal_where_defined w = true →
  meal_where_update w d db =
    if meal_update_empty d then (db, rejected EmptyUpdate)
    else match set_ate_at d, filter (meal_matches w) (meal_table db) with
         | Some None, _ :: _ => (db, rejected NotNullViolation)
         | _, rows =>
             ({| users_table := users_table db;
                 meal_table := (λ r, if decide (meal_matches w r)
                                     then apply_update d r else r) <$> meal_table db |},
              fulfilled (length rows))
         end.
Proof.
  intros Hw. unfold meal_where_update, compiled, throw. rewrite Hw.
  by destruct (meal_update_empty d).
Qed.

(** [PATCH /meal/:id] for a resolved caller, once body and id are parsed. *)
Lemma update_meal_resolved db sessionId user id body :
  resolves_to db sessionId user →
  let w := where_id_user_id id (Some user) in
  let d := merged_update newDate body (head (filter (meal_matches w) (meal_table db))) in
  update_meal newDate (Some sessionId) id body db =
    if meal_update_empty d then (db, rejected EmptyUpdate)
    else match set_ate_at d, filter (meal_matches w) (meal_table db) with
         | Some None, _ :: _ => (db, rejected NotNullViolation)
         | _, rows =>
             ({| users_table := users_table db;
                 meal_table := (λ r, if decide (meal_matches w r)
                                     then apply_update d r else r) <$> meal_table db |},
              fulfilled (send_object (meal_body (js_number (length rows)))))
         end.
Proof.
  intros Hu w d. unfold update_meal, await at 1.
  rewrite (session_user_resolved _ _ _ Hu).
  unfold first, await, meal_where_select, compiled, resolve.
  change (meal_where_defined (where_id_user_id id (Some user))) with true.
  lazy beta iota. rewrite meal_where_update_defined by done. fold w. fold d.
  destruct (meal_update_empty d); [done |].
  by destruct (set_ate_at d) as [[?|]|], (filter (meal_matches w) (meal_table db)).
Qed.

(** A caller without a user row changes nothing: the params are parsed,
    then the where-object holds an [undefined] binding and knex rejects the
    query. *)
Lemma delete_meal_unresolved db sessionId id :
  session_user sessionId db = (db, fulfilled None) →
  delete_meal uuid sessionId id db =
    (db, rejected (if uuid id then UndefinedBinding else ZodError)).
Proof.
  intros Hu. unfold delete_meal, await at 1. rewrite Hu.
  unfold getMealParamsSchema. by destruct (uuid id).
Qed.

Lemma get_meal_unresolved db sessionId id :
  session_user sessionId db = (db, fulfilled None) →
  get_meal uuid sessionId id db =
    (db, rejected (if uuid id then UndefinedBinding else ZodError)).
Proof.
  intros Hu. unfold get_meal, await at 1. rewrite Hu.
  unfold getMealParamsSchema. by destruct (uuid id).
Qed.

Lemma update_meal_unresolved db sessionId id body :
  session_user sessionId db = (db, fulfilled None) →
  update_meal newDate sessionId id body db = (db, rejected UndefinedBinding).
Proof. intros Hu. unfold update_meal, await at 1. by rewrite Hu. Qed.

Lemma session_user_some_inv db sessionId user :
  session_user sessionId db = (db, fulfilled (Some user)) →
  ∃ s, sessionId = Some s ∧ resolves_to db s user.
Proof. destruct sessionId as [s|]; [eauto | by unfold_queries]. Qed.

(** The row of the caller's own meal after the update: the statement fails
    on an Invalid Date, and else rewrites that one row. *)
Lemma update_meal_own db sessionId user id body m :
  resolves_to db sessionId user → meal_primary_key db →
  m ∈ meal_table db → meal.id m = id → meal.user_id m = Some (users.id user) →
  update_meal newDate (Some sessionId) id body db =
    match set_ate_at (merged_update newDate body (Some m)) with
    | Some None => (db, rejected NotNullViolation)
    | _ =>
        ({| users_table := users_table db;
            meal_table :=
              (λ r, if decide (meal_matches (where_id_user_id id (Some user)) r)
                    then apply_update (merged_update newDate body (Some m)) r else r)
                <$> meal_table db |},
         fulfilled (send_object (meal_body (js_number 1))))
    end.
Proof.
  intros Hu Hpk Hm Hid Hown. rewrite (update_meal_resolved _ _ _ _ _ Hu).
  rewrite (own_row_only _ _ _ _ Hpk Hm Hid Hown). simpl.
  rewrite merged_update_not_empty.
  by destruct (set_ate_at (merged_update newDate body (Some m))) as [[?|]|].
Qed.

(** The date the update would write is valid when the body's [ate_at] is
    [null], empty or parsable. *)
Lemma merged_ate_at_valid (request_body : updateMealRequest.t) (body : updateMealBody.t) m :
  updateMealBodySchema request_body = Some body →
  ate_at_parses newDate request_body →
  set_ate_at (merged_update newDate body (Some m)) ≠ Some None.
Proof.
  unfold updateMealBodySchema, ate_at_parses. intros Hparse Hdate.
  destruct (updateMealRequest.ate_at request_body) as [[| |s|]|] eqn:Hs;
    simpl in Hparse; repeat case_match; simplify_eq; simpl; try done.
  destruct (truthy_string s) eqn:Ht; [| done].
  destruct (Hdate s eq_refl) as [t Ht']; [by destruct s |]. by rewrite Ht'.
Qed.
End handler_facts.

(** ** The schemas of the update *)

Section patch_facts.
Variable newDate : string → Date.
Variable uuid : string → bool.
Implicit Types (db : Database) (m r : meal.row) (user : users.row).
Implicit Types (request_body : updateMealRequest.t) (body : updateMealBody.t).

Lemma updateMealBodySchema_Some request_body body :
  updateMealBodySchema request_body = Some body ↔
  z_string_nullable (updateMealRequest.name request_body)
    = Some (updateMealBody.name body) ∧
  z_string_nullable (updateMealRequest.description request_body)
    = Some (updateMealBody.description body) ∧
  z_string_nullable (updateMealRequest.ate_at request_body)
    = Some (updateMealBody.ate_at body) ∧
  z_boolean_nullable (updateMealRequest.is_diet request_body)
    = Some (updateMealBody.is_diet body).
Proof.
  unfold updateMealBodySchema. destruct body as [n d a f]. simpl. split.
  - intros H. repeat case_match; by simplify_eq.
  - by intros (-> & -> & -> & ->).
Qed.


Lemma patch_meal_parsed db sessionId id request_body body :
  updateMealBodySchema request_body = Some body →
  patch_meal newDate uuid sessionId id request_body db =
    if uuid id then update_meal newDate sessionId id body db
    else (db, rejected ZodError).
Proof.
  intros Hparse. unfold patch_meal, await at 1. rewrite Hparse. simpl.
  unfold await, getMealParamsSchema. by destruct (uuid id).
Qed.

Lemma patch_meal_refused db sessionId id request_body :
  updateMealBodySchema request_body = None →
  patch_meal newDate uuid sessionId id request_body db = (db, rejected ZodError).
Proof. intros Hparse. unfold patch_meal, await at 1. by rewrite Hparse. Qed.

(** Whatever the request, the update either leaves the store or runs the
    parsed update. *)
Lemma patch_meal_cases db sessionId id request_body :
  (patch_meal newDate uuid sessionId id request_body db).1 = db ∨
  ∃ body, updateMealBodySchema request_body = Some body ∧ uuid id = true ∧
    patch_meal newDate uuid sessionId id request_body db
      = update_meal newDate sessionId id body db.
Proof.
  destruct (updateMealBodySchema request_body) as [body|] eqn:Hparse.
  - rewrite (patch_meal_parsed _ _ _ _ _ Hparse).
    destruct (uuid id) eqn:Hid; [right; eauto | by left].
  - left. by rewrite (patch_meal_refused _ _ _ _ Hparse).
Qed.

(** What the update of a parsed body leaves alone. *)
Lemma update_meal_frame db sessionId id body :
  let updated := (update_meal newDate sessionId id body db).1 in
  users_table updated = users_table db ∧
  length (meal_table updated) = length (meal_table db) ∧
  (∀ i r, meal_table db !! i = Some r → ¬ targeted db sessionId id r →
     meal_table updated !! i = Some r).
Proof.
  intros updated. subst updated.
  destruct (session_user_cases sessionId db) as [Hrej | [[user|] Hfound]].
  - unfold update_meal, await. by rewrite Hrej.
  - apply session_user_some_inv in Hfound as Hs. destruct Hs as (s & -> & Hu).
    rewrite (update_meal_resolved newDate _ _ _ _ _ Hu). cbv zeta.
    set (w := where_id_user_id id (Some user)). set (d := merged_update _ _ _).
    destruct (meal_update_empty d); [done |].
    destruct (set_ate_at d) as [[t|]|],
      (filter (meal_matches w) (meal_table db)) as [|row rows];
      simpl; try done; rewrite length_fmap; (split; [done |]); (split; [done |]); intros i r Hi Hr;
      rewrite list_lookup_fmap, Hi; simpl; (rewrite decide_False; [done |]);
      intros Hm; apply Hr; exists user; (split; [done |]);
      by apply matches_id_user_id.
  - by rewrite (update_meal_unresolved newDate _ _ _ _ Hfound).
Qed.
End patch_facts.

(** ** Update by id *)





(** C7. For a [PATCH /users/meal/:id] request on an owned meal that the
    handler carries out (the id is a UUID, the body passes the schema and
    its [ate_at] is [null], empty or a parsable date), the reply has status
    200, and the [meal] field of its body holds what [.update()] resolved
    to, the number of rows updated, which is 1; it is not a meal record. *)
Theorem C7_patch_replies_row_count
    (newDate : string → Date) (uuid : string → bool) (db : Database) (sessionId : Uuid)
    (user : users.row) (id : Uuid) (request_body : updateMealRequest.t)
    (body : updateMealBody.t) (m : meal.row) :
  uuid id = true →
  updateMealBodySchema request_body = Some body →
  ate_at_parses newDate request_body →
  resolves_to db sessionId user →
  meal_primary_key db →
  m ∈ meal_table db →
  meal.id m = id →
  meal.user_id m = Some (users.id user) →
  ∃ reply,
    (patch_meal newDate uuid (Some sessionId) id request_body db).2 = fulfilled reply ∧
    statusCode reply = 200 ∧
    payload reply = meal_body (js_number 1) ∧
    ∀ updated : meal.row, payload reply ≠ meal_body (js_row updated).
Proof.
  intros Huuid Hparse Hdate Hu Hpk Hm Hid Hown.
  rewrite (patch_meal_parsed newDate uuid _ _ _ _ _ Hparse), Huuid.
  rewrite (update_meal_own newDate _ _ _ _ body _ Hu Hpk Hm Hid Hown).
  pose proof (merged_ate_at_valid newDate _ _ m Hparse Hdate) as Hvalid.
  destruct (set_ate_at (merged_update newDate body (Some m))) as [[t|]|]; [| done |];
    simpl; (eexists; split; [done |]); simpl; repeat split; discriminate.
Qed.

Lemma C7_patch_replies_row_count_witness :
  ∃ reply,
    (patch_meal iso_date uuid_shape (Some ann_session) salad_id sample_patch sample_db).2
      = fulfilled reply ∧
    statusCode reply = 200 ∧
    payload reply = meal_body (js_number 1) ∧
    ∀ updated : meal.row, payload reply ≠ meal_body (js_row updated).
Proof.
  apply (C7_patch_replies_row_count
           iso_date uuid_shape sample_db ann_session ann salad_id sample_patch
           sample_patch_parsed salad).
  - reflexivity.
  - reflexivity.
  - intros s Hs _. vm_compute in Hs. injection Hs as <-. vm_compute. eauto.
  - reflexivity.
  - apply (bool_decide_unpack _). vm_compute. exact I.
  - apply (bool_decide_unpack _). vm_compute. exact I.
  - reflexivity.
  - reflexivity.
Defined.

(** ** Ownership *)

(** C5. For every store state, every meal id and every two users A and B
    with different ids: if the meal with that id is owned by B, then A's
    get-by-id returns [{ meal: undefined }] (the id being a UUID, as every
    stored id is; the params schema refuses any other), A's update-by-id
    leaves the store as it was whatever the body, and A's delete-by-id
    leaves the store as it was, the meal still present. *)
Theorem C5_ownership_isolation
    (newDate : string → Date) (uuid : string → bool) (db : Database) (sessionIdA : Uuid)
    (A B : users.row) (id : Uuid) (m : meal.row) :
  resolves_to db sessionIdA A →
  users.id A ≠ users.id B →
  meal_primary_key db →
  m ∈ meal_table db →
  meal.id m = id →
  meal.user_id m = Some (users.id B) →
  get_meal uuid (Some sessionIdA) id db
    = (if uuid id then (db, fulfilled (send_object (meal_body js_undefined)))
       else (db, rejected ZodError)) ∧
  (∀ request_body,
     (patch_meal newDate uuid (Some sessionIdA) id request_body db).1 = db) ∧
  (delete_meal uuid (Some sessionIdA) id db).1 = db ∧
  m ∈ meal_table (delete_meal uuid (Some sessionIdA) id db).1.
Proof.
  intros Hu Hne Hpk Hm Hid Hown.
  assert (Forall (λ r, ¬ meal_matches (where_id_user_id id (Some A)) r) (meal_table db))
    as Hnone.
  { eapply foreign_row_no_match; eauto. rewrite Hown. congruence. }
  assert ((delete_meal uuid (Some sessionIdA) id db).1 = db) as Hdel.
  { rewrite (delete_meal_resolved _ _ _ _ _ Hu). destruct (uuid id); [| done]. simpl.
    rewrite filter_all by done. apply database_eta. }
  split; [| split; [| split]].
  - rewrite (get_meal_resolved _ _ _ _ _ Hu). by rewrite filter_none.
  - intros request_body.
    destruct (patch_meal_cases newDate uuid db (Some sessionIdA) id request_body)
      as [-> | (body & _ & _ & ->)]; [done |].
    rewrite (update_meal_resolved newDate _ _ _ _ _ Hu). cbv zeta.
    rewrite !filter_none by done. destruct (meal_update_empty _); [done |].
    destruct (set_ate_at _) as [[t|]|]; simpl; rewrite update_none by done;
      apply database_eta.
  - done.
  - by rewrite Hdel.
Qed.

Lemma C5_ownership_isolation_witness :
  get_meal uuid_shape (Some ann_session) burger_id sample_db
    = (sample_db, fulfilled {| statusCode := 200; setCookie := None;
                               payload := meal_body js_undefined |}) ∧
  (∀ request_body,
     (patch_meal iso_date uuid_shape (Some ann_session) burger_id request_body
        sample_db).1 = sample_db) ∧
  (delete_meal uuid_shape (Some ann_session) burger_id sample_db).1 = sample_db ∧
  burger ∈ meal_table (delete_meal uuid_shape (Some ann_session) burger_id sample_db).1.
Proof.
  apply (C5_ownership_isolation iso_date uuid_shape sample_db ann_session ann bob
           burger_id burger).
  - reflexivity.
  - apply (bool_decide_unpack _). vm_compute. exact I.
  - apply (bool_decide_unpack _). vm_compute. exact I.
  - apply (bool_decide_unpack _). vm_compute. exact I.
  - reflexivity.
  - reflexivity.
Defined.

(** ** Delete by id *)

(** C8. For every store state, every caller whose session resolves to a
    user and every meal id, which is a UUID: delete-by-id replies 204 with
    no body, whether or not a row matched, and get-by-id with the same id
    and session on the resulting store returns [{ meal: undefined }].  (An
    id that is no UUID is refused by the params schema of both routes, and
    nothing is deleted or returned.) *)
Theorem C8_delete_then_get_absent
    (uuid : string → bool) (db : Database) (sessionId : Uuid) (user : users.row)
    (id : string) :
  resolves_to db sessionId user →
  (uuid id = true →
   (delete_meal uuid (Some sessionId) id db).2
     = fulfilled {| statusCode := 204; setCookie := None; payload := no_body |} ∧
   let db' := (delete_meal uuid (Some sessionId) id db).1 in
   get_meal uuid (Some sessionId) id db'
     = (db', fulfilled {| statusCode := 200; setCookie := None;
                          payload := meal_body js_undefined |})) ∧
  (uuid id = false →
   delete_meal uuid (Some sessionId) id db = (db, rejected ZodError) ∧
   get_meal uuid (Some sessionId) id db = (db, rejected ZodError)).
Proof.
  intros Hu. rewrite (delete_meal_resolved _ _ _ _ _ Hu). split; intros Huuid.
  - rewrite Huuid. simpl. split; [done |].
    set (db' := {| users_table := _; meal_table := _ |}).
    assert (resolves_to db' sessionId user) as Hu'.
    { apply resolves_to_head. by apply resolves_to_head in Hu. }
    rewrite (get_meal_resolved _ _ _ _ _ Hu'), Huuid. simpl.
    rewrite filter_none; [done |].
    apply Forall_forall. intros r Hr. by apply list_elem_of_filter in Hr as [Hr _].
  - rewrite (get_meal_resolved _ _ _ _ _ Hu), Huuid. done.
Qed.

Lemma C8_delete_then_get_absent_witness :
  (delete_meal uuid_shape (Some ann_session) salad_id sample_db).2
    = fulfilled {| statusCode := 204; setCookie := None; payload := no_body |} ∧
  let db' := (delete_meal uuid_shape (Some ann_session) salad_id sample_db).1 in
  get_meal uuid_shape (Some ann_session) salad_id db'
    = (db', fulfilled {| statusCode := 200; setCookie := None;
                         payload := meal_body js_undefined |}).
Proof.
  apply (proj1 (C8_delete_then_get_absent uuid_shape sample_db ann_session ann salad_id
                  eq_refl)).
  reflexivity.
Defined.

(** ** Frame of update and delete *)

Section frame_facts.
Variable newDate : string → Date.
Variable uuid : string → bool.
Implicit Types (db : Database) (l rows : list meal.row) (r : meal.row).

(** A delete either leaves the store or removes the rows matching the id
    and the resolved caller. *)
Lemma delete_meal_cases db sessionId id :
  (delete_meal uuid sessionId id db).1 = db ∨
  ∃ s user, sessionId = Some s ∧ resolves_to db s user ∧ uuid id = true ∧
    delete_meal uuid sessionId id db =
      ({| users_table := users_table db;
          meal_table := filter (λ r, ¬ meal_matches (where_id_user_id id (Some user)) r)
                               (meal_table db) |},
       fulfilled (send_status 204 None)).
Proof.
  destruct (session_user_cases sessionId db) as [Hrej | [[user|] Hfound]].
  - left. unfold delete_meal, await. by rewrite Hrej.
  - apply session_user_some_inv in Hfound as (s & -> & Hu).
    rewrite (delete_meal_resolved _ _ _ _ _ Hu).
    destruct (uuid id) eqn:Huuid; [right | by left]. by exists s, user.
  - left. by rewrite (delete_meal_unresolved _ _ _ _ Hfound).
Qed.

(** A parsed update either leaves the store or rewrites in place the rows
    matching the id and the resolved caller. *)
Lemma update_meal_cases db sessionId id body :
  (update_meal newDate sessionId id body db).1 = db ∨
  ∃ s user d, sessionId = Some s ∧ resolves_to db s user ∧
    (update_meal newDate sessionId id body db).1 =
      {| users_table := users_table db;
         meal_table := (λ r, if decide (meal_matches (where_id_user_id id (Some user)) r)
                             then apply_update d r else r) <$> meal_table db |}.
Proof.
  destruct (session_user_cases sessionId db) as [Hrej | [[user|] Hfound]].
  - left. unfold update_meal, await. by rewrite Hrej.
  - apply session_user_some_inv in Hfound as (s & -> & Hu).
    rewrite (update_meal_resolved newDate _ _ _ _ _ Hu). cbv zeta.
    destruct (meal_update_empty _); [by left |].
    destruct (set_ate_at _) as [[t|]|], (filter _ (meal_table db)) as [|row rows];
      simpl; try (by left); right; eauto 10.
  - left. by rewrite (update_meal_unresolved newDate _ _ _ _ Hfound).
Qed.

(** Removing the rows that satisfy [P], all of which carry the one [id],
    from rows with distinct ids takes out one block of at most one row. *)
Lemma filter_out_split (P : meal.row → Prop) `{∀ r, Decision (P r)} (id : Uuid) rows :
  NoDup (meal.id <$> rows) →
  (∀ r, P r → meal.id r = id) →
  ∃ before gone after : list meal.row,
    rows = before ++ gone ++ after ∧
    filter (λ r, ¬ P r) rows = before ++ after ∧
    length gone ≤ 1 ∧ Forall P gone.
Proof.
  intros Hpk Hid. induction rows as [|r rows IH].
  - exists [], [], []. repeat split; [simpl; lia | constructor].
  - rewrite fmap_cons in Hpk. apply NoDup_cons in Hpk as [Hfresh Hpk].
    destruct (decide (P r)) as [Hr|Hr].
    + exists [], [r], rows. simpl. split; [done |].
      split; [| split; [lia | by repeat constructor]].
      rewrite filter_cons_False by (intros Hn; by apply Hn).
      apply filter_all, Forall_forall. intros r' Hr' HP.
      apply Hfresh. apply list_elem_of_fmap. exists r'. split; [| done].
      rewrite (Hid _ Hr), (Hid _ HP). done.
    + destruct (IH Hpk) as (before & gone & after & -> & Hfilter & Hlen & Hgone).
      exists (r :: before), gone, after. split; [done |].
      rewrite filter_cons_True by done. rewrite Hfilter. done.
Qed.

(** What delete-by-id leaves alone. *)
Lemma delete_meal_frame db (sessionId : option Uuid) (id : string) :
  meal_primary_key db →
  let deleted := (delete_meal uuid sessionId id db).1 in
  users_table deleted = users_table db ∧
  (∃ before gone after : list meal.row,
     meal_table db = before ++ gone ++ after ∧
     meal_table deleted = before ++ after ∧
     length gone ≤ 1 ∧ Forall (targeted db sessionId id) gone).
Proof.
  intros Hpk deleted. subst deleted.
  destruct (delete_meal_cases db sessionId id)
    as [-> | (s & user & -> & Hu & _ & ->)].
  - split; [done |]. exists (meal_table db), [], [].
    rewrite !app_nil_r. repeat split; [simpl; lia | constructor].
  - simpl. split; [done |].
    destruct (filter_out_split (meal_matches (where_id_user_id id (Some user)))
                id (meal_table db) Hpk)
      as (before & gone & after & Hrows & Hfilter & Hlen & Hgone).
    { intros r Hr. by apply matches_id_user_id in Hr as [Hr _]. }
    exists before, gone, after. repeat split; try done.
    eapply Forall_impl; [exact Hgone |]. intros r Hr.
    apply matches_id_user_id in Hr. exists user. by split.
Qed.
End frame_facts.

(** C10. For every store state obeying the primary key of [meal], every
    caller and every meal id: at most one row is the one matching both the
    id and the caller's user id; update-by-id keeps the user rows, the
    number of meal rows and, at its position, every meal row other than
    that one; delete-by-id keeps the user rows and takes out of the meal
    rows one block of at most one row, that one, the rows before and after
    it staying as they were and in order. *)
Theorem C10_update_delete_frame
    (newDate : string → Date) (uuid : string → bool) (db : Database)
    (sessionId : option Uuid) (id : string) (request_body : updateMealRequest.t) :
  meal_primary_key db →
  let updated := (patch_meal newDate uuid sessionId id request_body db).1 in
  let deleted := (delete_meal uuid sessionId id db).1 in
  (∀ i j r r', meal_table db !! i = Some r → meal_table db !! j = Some r' →
     targeted db sessionId id r → targeted db sessionId id r' → i = j) ∧
  users_table updated = users_table db ∧
  length (meal_table updated) = length (meal_table db) ∧
  (∀ i r, meal_table db !! i = Some r → ¬ targeted db sessionId id r →
     meal_table updated !! i = Some r) ∧
  users_table deleted = users_table db ∧
  (∃ before gone after : list meal.row,
     meal_table db = before ++ gone ++ after ∧
     meal_table deleted = before ++ after ∧
     length gone ≤ 1 ∧ Forall (targeted db sessionId id) gone).
Proof.
  intros Hpk updated deleted. split.
  { intros i j r r' Hi Hj (_ & _ & Hr & _) (_ & _ & Hr' & _).
    eapply (NoDup_lookup _ _ _ id Hpk);
      rewrite list_lookup_fmap; [rewrite Hi | rewrite Hj]; simpl; congruence. }
  assert (users_table updated = users_table db ∧
          length (meal_table updated) = length (meal_table db) ∧
          (∀ i r, meal_table db !! i = Some r → ¬ targeted db sessionId id r →
             meal_table updated !! i = Some r)) as (Husers & Hlen & Hrows).
  { subst updated.
    destruct (patch_meal_cases newDate uuid db sessionId id request_body)
      as [-> | (body & _ & _ & ->)]; [done |]. apply update_meal_frame. }
  do 3 (split; [done |]). subst deleted. apply delete_meal_frame. done.
Qed.

Lemma C10_update_delete_frame_witness :
  let updated := (patch_meal iso_date uuid_shape (Some ann_session) salad_id sample_patch
                    sample_db).1 in
  let deleted := (delete_meal uuid_shape (Some ann_session) salad_id sample_db).1 in
  (∀ i j r r', meal_table sample_db !! i = Some r → meal_table sample_db !! j = Some r' →
     targeted sample_db (Some ann_session) salad_id r →
     targeted sample_db (Some ann_session) salad_id r' → i = j) ∧
  users_table updated = users_table sample_db ∧
  length (meal_table updated) = length (meal_table sample_db) ∧
  (∀ i r, meal_table sample_db !! i = Some r →
     ¬ targeted sample_db (Some ann_session) salad_id r →
     meal_table updated !! i = Some r) ∧
  users_table deleted = users_table sample_db ∧
  (∃ before gone after : list meal.row,
     meal_table sample_db = before ++ gone ++ after ∧
     meal_table deleted = before ++ after ∧
     length gone ≤ 1 ∧ Forall (targeted sample_db (Some ann_session) salad_id) gone).
Proof.
  apply (C10_update_delete_frame iso_date uuid_shape sample_db (Some ann_session)
           salad_id sample_patch).
  apply (bool_decide_unpack _). vm_compute. exact I.
Defined.

(** ** Lemmas on the remaining handlers *)

Section route_facts.
Variable newDate : string → Date.
Implicit Types (db : Database) (m r : meal.row) (user : users.row).

Lemma matches_user_id user r :
  meal_matches (where_user_id (Some user)) r ↔ meal.user_id r = Some (users.id user).
Proof. unfold meal_matches, where_user_id. simpl. tauto. Qed.

Lemma matches_user_id_is_diet user flag r :
  meal_matches (where_user_id_is_diet (Some user) flag) r ↔
  meal.user_id r = Some (users.id user) ∧ meal.is_diet r = flag.
Proof.
  unfold meal_matches, where_user_id_is_diet. simpl. split.
  - intros (_ & Hu & Hf). split; congruence.
  - intros [Hu <-]. done.
Qed.

(** [GET /meal/] for a resolved caller. *)
Lemma get_meals_resolved db sessionId user :
  resolves_to db sessionId user →
  get_meals (Some sessionId) db =
    (db, fulfilled (send_object (meals_body (meals_of (users.id user) db)))).
Proof.
  intros Hu. unfold get_meals, await at 1. rewrite (session_user_resolved _ _ _ Hu).
  unfold_queries. simpl. do 4 f_equal. apply list_filter_iff, matches_user_id.
Qed.

(** [POST /meal/] once the user lookup has answered: an Invalid Date is
    refused by the NOT NULL column, a known id by the primary key. *)
Lemma post_meal_found db sessionId found id body :
  session_user sessionId db = (db, fulfilled found) →
  post_meal newDate sessionId id body db =
    match newDate (createMealBody.ate_at body) with
    | None => (db, rejected NotNullViolation)
    | Some ate_at =>
        if decide (id ∈ meal.id <$> meal_table db)
        then (db, rejected UniqueViolation)
        else ({| users_table := users_table db;
                 meal_table := meal_table db ++
                   [new_meal_row ate_at (user_id_of found) id body] |},
              fulfilled (send_status 201 None))
    end.
Proof.
  intros Hu. unfold post_meal, await at 1. rewrite Hu.
  unfold await, meal_insert. simpl.
  destruct (newDate _); [| done]. by case_decide.
Qed.

(** [POST /]: the insert goes through exactly when both keys are new. *)
Lemma post_users_run db sessionId id body :
  post_users newDate sessionId id body db =
    if decide (id ∈ users.id <$> users_table db)
    then (db, rejected UniqueViolation)
    else if decide (sessionId ∈ users.session_id <$> users_table db)
    then (db, rejected UniqueViolation)
    else ({| users_table := users_table db ++ [new_user_row newDate sessionId id body];
             meal_table := meal_table db |},
          fulfilled (send_status 201 (Some (session_cookie sessionId)))).
Proof.
  unfold post_users, await, users_insert. simpl. by repeat case_decide.
Qed.

(** A resolved session stays resolved as long as the user rows stay. *)
Lemma resolves_to_users db db' sessionId user :
  users_table db' = users_table db →
  resolves_to db sessionId user → resolves_to db' sessionId user.
Proof. intros Heq Hu. apply resolves_to_head. rewrite Heq. by apply resolves_to_head. Qed.

Lemma matches_no_user_head db sessionId :
  matches_no_user db sessionId ↔
  filter (λ u, Some (users.session_id u) = Some sessionId) (users_table db) = [].
Proof.
  unfold matches_no_user. unfold_queries. simpl. unfold binds. split.
  - intros H. simplify_eq. by destruct (filter _ _).
  - by intros ->.
Qed.

(** The [preHandler] lets a cookie through exactly when the handler's own
    lookup finds a user row for it. *)
Lemma checkSessionIdExists_resolves db sessionId :
  checkSessionIdExists db sessionId = true ↔
  ∃ s user, sessionId = Some s ∧ resolves_to db s user.
Proof.
  assert (∀ s, filter (λ u, Some (users.session_id u) = Some s) (users_table db)
               = filter (λ u, users.session_id u = s) (users_table db)) as Heq.
  { intros s. apply list_filter_iff. intros u. split; congruence. }
  unfold checkSessionIdExists. split.
  - destruct sessionId as [s|]; [| done].
    destruct (filter _ _) as [|user rest] eqn:Hf; [done |]. intros _.
    exists s, user. split; [done |]. apply resolves_to_head.
    by rewrite Heq, Hf.
  - intros (s & user & -> & Hu). apply resolves_to_head in Hu.
    rewrite Heq in Hu. by destruct (filter _ _).
Qed.

Lemma checkSessionIdExists_unmatched db sessionId :
  matches_no_user db sessionId → checkSessionIdExists db (Some sessionId) = false.
Proof.
  intros Hnone. destruct (checkSessionIdExists db (Some sessionId)) eqn:Hc; [| done].
  apply checkSessionIdExists_resolves in Hc as (s & user & ? & Hu). simplify_eq.
  unfold resolves_to, matches_no_user in *. congruence.
Qed.
End route_facts.

(** ** Reachable stores *)

Section reachable_facts.
Variable newDate : string → Date.
Variable uuid : string → bool.
Implicit Types (db : Database) (m r : meal.row) (user : users.row).

Lemma apply_update_keys (d : meal_update) r :
  meal.id (apply_update d r) = meal.id r ∧
  meal.user_id (apply_update d r) = meal.user_id r.
Proof. done. Qed.

(** The user row a handler works for is a row of [users]. *)
Lemma session_user_elem_of db sessionId user :
  session_user sessionId db = (db, fulfilled (Some user)) → user ∈ users_table db.
Proof.
  intros Hu. apply session_user_some_inv in Hu as (s & -> & Hu).
  apply resolves_to_head, head_Some_elem_of, list_elem_of_filter in Hu. tauto.
Qed.

(** Handlers that only read leave the store alone. *)
Lemma get_users_reads sessionId db : (get_users sessionId db).1 = db.
Proof. destruct sessionId; by unfold get_users; unfold_queries. Qed.

Lemma get_metrics_reads sessionId db : (get_metrics sessionId db).1 = db.
Proof.
  unfold get_metrics, await at 1.
  destruct (session_user_cases sessionId db) as [-> | [[user|] ->]];
    by unfold_queries.
Qed.

Lemma get_meals_reads sessionId db : (get_meals sessionId db).1 = db.
Proof.
  unfold get_meals, await at 1.
  destruct (session_user_cases sessionId db) as [-> | [[user|] ->]];
    by unfold_queries.
Qed.

Lemma get_meal_reads sessionId id db : (get_meal uuid sessionId id db).1 = db.
Proof.
  unfold get_meal, await at 1.
  destruct (session_user_cases sessionId db) as [-> | [[user|] ->]];
    unfold getMealParamsSchema; destruct (uuid id); by unfold_queries.
Qed.

Lemma handler_store req db :
  (serve newDate uuid req db).1 = db ∨
  preHandler_passes db req = true ∧
  (serve newDate uuid req db).1 = (handler newDate uuid req db).1.
Proof.
  unfold serve. destruct (preHandler_passes db req); [right | by left].
  by destruct (handler newDate uuid req db) as [db' [reply|e]].
Qed.

(** The store after any request: as before, or with the new user row of a
    registration, or without the rows matching an id and a user, or with
    those rows updated in place, or with one new meal row, of a fresh id,
    owned by the user the cookie resolves to. *)
Lemma serve_effect req db :
  (serve newDate uuid req db).1 = db ∨
  (∃ sessionId id body,
     req = POST_users sessionId id body ∧
     (serve newDate uuid req db).1 =
       {| users_table := users_table db ++ [new_user_row newDate sessionId id body];
          meal_table := meal_table db |}) ∨
  (∃ sessionId id user,
     req = DELETE_meal sessionId id ∧
     (serve newDate uuid req db).1 =
       {| users_table := users_table db;
          meal_table := filter (λ r, ¬ meal_matches (where_id_user_id id (Some user)) r)
                               (meal_table db) |}) ∨
  (∃ user id d,
     (serve newDate uuid req db).1 =
       {| users_table := users_table db;
          meal_table := (λ r, if decide (meal_matches (where_id_user_id id (Some user)) r)
                              then apply_update d r else r) <$> meal_table db |}) ∨
  (∃ sessionId id body user ate_at,
     req = POST_meal sessionId id body ∧
     user ∈ users_table db ∧ (id ∉ meal.id <$> meal_table db) ∧
     (serve newDate uuid req db).1 =
       {| users_table := users_table db;
          meal_table := meal_table db ++
            [new_meal_row ate_at (Some (users.id user)) id body] |}).
Proof.
  destruct (handler_store req db) as [-> | [Hpass ->]]; [by left |]. destruct req as
    [sessionId id body | sessionId | sessionId | sessionId | sessionId id
    | sessionId id | sessionId id body | sessionId id body]; simpl.
  - rewrite post_users_run. repeat case_decide; simpl; [by left | by left |].
    right; left. by exists sessionId, id, body.
  - left. apply get_users_reads.
  - left. apply get_metrics_reads.
  - left. apply get_meals_reads.
  - left. apply get_meal_reads.
  - destruct (delete_meal_cases uuid db sessionId id)
      as [-> | (s & user & -> & Hu & _ & ->)]; [by left |].
    right; right; left. by exists (Some s), id, user.
  - destruct (patch_meal_cases newDate uuid db sessionId id body)
      as [-> | (parsed & _ & _ & ->)]; [by left |].
    destruct (update_meal_cases newDate db sessionId id parsed)
      as [-> | (s & user & d & -> & Hu & ->)]; [by left |].
    right; right; right; left. eauto.
  - apply checkSessionIdExists_resolves in Hpass as (s & user & -> & Hu).
    rewrite (post_meal_found newDate _ _ _ _ _ Hu).
    destruct (newDate _) as [ate_at|]; [| by left].
    case_decide; simpl; [by left |]. right; right; right; right.
    exists (Some s), id, body, user, ate_at.
    split; [done |]. split; [by eapply session_user_elem_of |]. done.
Qed.

(** Every served request is one of the store steps. *)
Lemma serve_step req db : store_step db (serve newDate uuid req db).1.
Proof.
  destruct (serve_effect req db)
    as [-> | [(s & id & body & _ & ->) | [(s & id & user & _ & ->)
       | [(user & id & d & ->) | (s & id & body & user & t & _ & Hu & Hid & ->)]]]].
  - constructor.
  - constructor.
  - apply (step_delete db (λ r, ¬ meal_matches (where_id_user_id id (Some user)) r)).
  - apply (step_update db (λ r, if decide _ then apply_update _ r else r)).
    intros r. case_decide; [apply apply_update_keys | done].
  - apply step_create; [done |]. right. by exists user.
Qed.

Lemma store_step_primary_key db db' :
  store_step db db' → meal_primary_key db → meal_primary_key db'.
Proof.
  unfold meal_primary_key. intros [| u | P ? | g Hg | m Hfresh _] Hpk; simpl; try done.
  - induction (meal_table db) as [|r rows IH]; [done |].
    rewrite fmap_cons in Hpk. apply NoDup_cons in Hpk as [Hfresh Hpk].
    rewrite filter_cons. case_decide; [| by apply IH].
    rewrite fmap_cons. apply NoDup_cons. split; [| by apply IH].
    intros Hin. apply Hfresh.
    apply list_elem_of_fmap in Hin as (r' & -> & Hr').
    apply list_elem_of_filter in Hr' as [_ Hr'].
    by apply list_elem_of_fmap_2.
  - rewrite <- list_fmap_compose.
    erewrite list_fmap_ext; [exact Hpk |]. intros i r _. simpl. apply Hg.
  - rewrite fmap_app. apply NoDup_app. split; [done |]. split.
    + intros x Hx Habs. apply list_elem_of_singleton in Habs as ->. done.
    + apply NoDup_singleton.
Qed.

Lemma store_step_owners_exist db db' :
  store_step db db' → owners_exist db → owners_exist db'.
Proof.
  unfold owners_exist.
  intros [| u | P ? | g Hg | m _ Howner] Hinv r owner; simpl; try apply Hinv.
  - intros Hr Hown. rewrite fmap_app. apply elem_of_app. left. eauto.
  - intros Hr. apply list_elem_of_filter in Hr as [_ Hr]. eauto.
  - intros Hr Hown. apply list_elem_of_fmap in Hr as (r' & -> & Hr').
    destruct (Hg r') as [_ Huser]. rewrite Huser in Hown. eauto.
  - intros Hr Hown. apply elem_of_app in Hr as [Hr | Hr]; [eauto |].
    apply list_elem_of_singleton in Hr as ->.
    destruct Howner as [Hnull | (user & Huser & Hsome)]; [congruence |].
    rewrite Hsome in Hown. simplify_eq. by apply list_elem_of_fmap_2.
Qed.

(** The primary key of [meal] holds in every reachable store. *)
Lemma reachable_primary_key db : reachable newDate uuid db → meal_primary_key db.
Proof.
  induction 1 as [|db req _ IH]; [apply NoDup_nil_2 |].
  eapply store_step_primary_key; [apply serve_step | done].
Qed.

(** In every reachable store a meal row that names an owner names an
    existing user row. *)
Lemma reachable_owners_exist db : reachable newDate uuid db → owners_exist db.
Proof.
  induction 1 as [|db req _ IH].
  - intros m owner Hm. by apply elem_of_nil in Hm.
  - eapply store_step_owners_exist; [apply serve_step | done].
Qed.

(** Serving a request keeps every meal row owned: the [preHandler] lets a
    meal be created only for a cookie that resolves to a user row. *)
Lemma serve_every_meal_owned req db :
  every_meal_owned db → every_meal_owned (serve newDate uuid req db).1.
Proof.
  unfold every_meal_owned. intros Hinv.
  destruct (serve_effect req db)
    as [-> | [(s & id & body & _ & ->) | [(s & id & user & _ & ->)
       | [(user & id & d & ->) | (s & id & body & user & t & _ & Hu & Hid & ->)]]]];
    simpl; [done | | | |].
  - intros m Hm. destruct (Hinv m Hm) as (owner & Howner & Hsome).
    exists owner. split; [| done]. apply elem_of_app. by left.
  - intros m Hm. apply list_elem_of_filter in Hm as [_ Hm]. eauto.
  - intros m Hm. apply list_elem_of_fmap in Hm as (r & -> & Hr).
    destruct (Hinv r Hr) as (owner & Howner & Hsome).
    exists owner. split; [done |]. by case_decide.
  - intros m Hm. apply elem_of_app in Hm as [Hm | Hm]; [eauto |].
    apply list_elem_of_singleton in Hm as ->. by exists user.
Qed.

Lemma reachable_every_meal_owned db : reachable newDate uuid db → every_meal_owned db.
Proof.
  induction 1 as [|db req _ IH].
  - intros m Hm. by apply elem_of_nil in Hm.
  - by apply serve_every_meal_owned.
Qed.

(** Registration keeps the primary key of [users]. *)
Lemma serve_users_primary_key req db :
  users_primary_key db → users_primary_key (serve newDate uuid req db).1.
Proof.
  unfold users_primary_key. intros Hpk.
  destruct (handler_store req db) as [-> | [_ Hserve]]; [done |].
  destruct (serve_effect req db)
    as [-> | [(s & id & body & -> & Heff) | [(s & id & user & _ & ->)
       | [(user & id & d & ->) | (s & id & body & user & t & _ & Hu & Hid & ->)]]]];
    simpl; try done.
  simpl in Hserve. rewrite post_users_run in Hserve.
  case_decide as Hid; [by rewrite Hserve |].
  rewrite Heff. simpl. rewrite fmap_app. apply NoDup_app. split; [done |]. split.
  - intros x Hx Habs. apply list_elem_of_singleton in Habs as ->. done.
  - apply NoDup_singleton.
Qed.

Lemma reachable_users_primary_key db : reachable newDate uuid db → users_primary_key db.
Proof.
  induction 1 as [|db req _ IH]; [apply NoDup_nil_2 |].
  by apply serve_users_primary_key.
Qed.
End reachable_facts.

(** ** The rows scanned by [GET /metrics/] *)

Section metrics_facts.
Implicit Types (db : Database) (m r : meal.row) (rows : list meal.row).

Lemma insert_by_ate_at_perm m rows : insert_by_ate_at m rows ≡ₚ m :: rows.
Proof.
  induction rows as [|r rows IH]; [done |]. simpl. case_decide; [done |].
  rewrite IH. apply Permutation_swap.
Qed.

Lemma insert_by_ate_at_sorted m rows :
  StronglySorted ate_at_le rows → StronglySorted ate_at_le (insert_by_ate_at m rows).
Proof.
  induction 1 as [|r rows Hsorted IH Hr]; simpl.
  - repeat constructor.
  - case_decide as Hle.
    + constructor; [by constructor |]. constructor; [done |].
      eapply Forall_impl; [exact Hr |]. unfold ate_at_le. intros; simpl in *; lia.
    + constructor; [done |]. rewrite insert_by_ate_at_perm.
      constructor; [unfold ate_at_le; lia | done].
Qed.

(** [orderBy('ate_at')] yields the same rows in ascending [ate_at]. *)
Lemma orderBy_ate_at_sorted rows :
  StronglySorted ate_at_le (foldr insert_by_ate_at [] rows) ∧
  foldr insert_by_ate_at [] rows ≡ₚ rows.
Proof.
  induction rows as [|r rows [IHs IHp]]; [split; [constructor | done] |].
  simpl. split; [by apply insert_by_ate_at_sorted |].
  by rewrite insert_by_ate_at_perm, IHp.
Qed.

(** [GET /metrics/] for a resolved caller: each count is the one-row
    result of its query, and the loop runs over the caller's rows in
    ascending [ate_at]. *)
Lemma get_metrics_resolved db sessionId user :
  resolves_to db sessionId user →
  let mine := filter (meal_matches (where_user_id (Some user))) (meal_table db) in
  get_metrics (Some sessionId) db =
    (db, fulfilled (send_object (metrics_body
      (metrics_of
         [{| total := length mine |}]
         [{| total := length (filter (meal_matches (where_user_id_is_diet (Some user) true))
                                     (meal_table db)) |}]
         [{| total := length (filter (meal_matches (where_user_id_is_diet (Some user) false))
                                     (meal_table db)) |}]
         (foldr insert_by_ate_at [] mine))))).
Proof.
  intros Hu mine. unfold get_metrics, await at 1.
  rewrite (session_user_resolved _ _ _ Hu). by unfold_queries.
Qed.
End metrics_facts.

(** ** The streak reported by [GET /metrics/] *)

Lemma trailing_run_unique (l : list meal.row) n n' :
  trailing_run l n → trailing_run l n' → n = n'.
Proof.
  intros Hn Hn'.
  assert (n' ≤ n).
  { eapply trailing_run_longest; [exact Hn | apply Hn' |].
    destruct Hn' as [[? _] _]. lia. }
  assert (n ≤ n'); [| lia].
  eapply trailing_run_longest; [exact Hn' | apply Hn |].
  destruct Hn as [[? _] _]. lia.
Qed.

(** C1. For every meal sequence, the [score.bestScore] field of the
    [GET /users/metrics/] response is the running counter [score] at the end
    of the scan, which is the length of the trailing run of diet-compliant
    meals; the maximum is computed by the loop (its [bestScore] counter) but
    the response does not carry it: on [compliant, non-compliant] the
    response says 0 while the maximum run is 1.  The handler builds its
    response this way from the caller's meals in ascending [ate_at]. *)
Theorem C1_response_reports_running_streak :
  (∀ mealsCount inDiet outDiet sortedMeals,
     let reported :=
       metrics.bestScore (metrics.score (metrics_of mealsCount inDiet outDiet sortedMeals)) in
     reported = score (streak_loop sortedMeals) ∧
     trailing_run sortedMeals reported ∧
     max_run sortedMeals (bestScore (streak_loop sortedMeals))) ∧
  (∃ sortedMeals,
     let response :=
       metrics_of [{| total := 2 |}] [{| total := 1 |}] [{| total := 1 |}] sortedMeals in
     metrics.bestScore (metrics.score response) = 0 ∧
     max_run sortedMeals 1 ∧
     ¬ max_run sortedMeals (metrics.bestScore (metrics.score response))) ∧
  (∀ db sessionId user,
     resolves_to db sessionId user →
     ∃ mealsCount inDiet outDiet sortedMeals,
       get_metrics (Some sessionId) db =
         (db, fulfilled {| statusCode := 200; setCookie := None;
                           payload := metrics_body
                             (metrics_of mealsCount inDiet outDiet sortedMeals) |}) ∧
       StronglySorted ate_at_le sortedMeals ∧
       sortedMeals ≡ₚ
         filter (λ m, meal.user_id m = Some (users.id user)) (meal_table db)).
Proof.
  split; [| split].
  - intros mealsCount inDiet outDiet sortedMeals. simpl.
    split; [done |]. split; [apply score_trailing_run | apply bestScore_max_run].
  - exists [meal_of true; meal_of false].
    pose proof (bestScore_max_run [meal_of true; meal_of false]) as Hmax.
    change (bestScore (streak_loop [meal_of true; meal_of false])) with 1 in Hmax.
    cbv zeta. split; [done |]. split; [done |].
    intros Habs. pose proof (max_run_unique _ _ _ Hmax Habs). discriminate.
  - intros db sessionId user Hu. do 4 eexists.
    split; [apply (get_metrics_resolved _ _ _ Hu) |].
    destruct (orderBy_ate_at_sorted
                (filter (meal_matches (where_user_id (Some user))) (meal_table db)))
      as [Hsorted Hperm].
    split; [done |]. rewrite Hperm.
    erewrite list_filter_iff; [done |]. intros m.
    unfold meal_matches, where_user_id. simpl. tauto.
Qed.

Lemma C1_response_reports_running_streak_witness :
  ∃ mealsCount inDiet outDiet sortedMeals,
    get_metrics (Some ann_session) sample_week =
      (sample_week, fulfilled {| statusCode := 200; setCookie := None;
                                 payload := metrics_body
                                   (metrics_of mealsCount inDiet outDiet sortedMeals) |}) ∧
    StronglySorted ate_at_le sortedMeals ∧
    sortedMeals ≡ₚ
      filter (λ m, meal.user_id m = Some (users.id ann)) (meal_table sample_week).
Proof.
  apply (proj2 (proj2 C1_response_reports_running_streak) sample_week ann_session ann).
  reflexivity.
Defined.

(** C2. For every meal sequence (ordered by [ate_at] or not), the
    [bestScore] counter of the single left-to-right scan is the maximum
    run-length of consecutive diet-compliant meals; it is 0 for the empty
    sequence, the total count when every meal is compliant, and 0 when no
    meal is compliant. *)
Theorem C2_bestScore_is_max_run :
  (∀ sortedMeals, max_run sortedMeals (bestScore (streak_loop sortedMeals))) ∧
  bestScore (streak_loop []) = 0 ∧
  (∀ sortedMeals, all_diet sortedMeals →
     bestScore (streak_loop sortedMeals) = length sortedMeals) ∧
  (∀ sortedMeals, none_diet sortedMeals → bestScore (streak_loop sortedMeals) = 0).
Proof.
  split; [apply bestScore_max_run |]. split; [done |]. split.
  - intros l Hall. destruct (bestScore_max_run l) as [[i [Hle _]] Hmax].
    apply all_diet_run, Hmax in Hall. lia.
  - intros l Hnone. destruct (bestScore_max_run l) as [[i [Hle Hrun]] _].
    destruct (bestScore (streak_loop l)) as [|n] eqn:Hn; [done | exfalso].
    assert (diet_at l i) as Hi by (apply Hrun; lia).
    unfold diet_at in Hi. unfold none_diet in Hnone.
    rewrite Forall_lookup in Hnone.
    destruct (l !! i) as [m|] eqn:Hm; [| discriminate].
    apply Hnone in Hm. simpl in Hi. congruence.
Qed.

Lemma C2_bestScore_is_max_run_witness :
  bestScore (streak_loop [meal_of true; meal_of true; meal_of true]) = 3 ∧
  bestScore (streak_loop [meal_of false; meal_of false]) = 0.
Proof.
  split.
  - apply (proj1 (proj2 (proj2 C2_bestScore_is_max_run))
             [meal_of true; meal_of true; meal_of true]).
    repeat constructor.
  - apply (proj2 (proj2 (proj2 C2_bestScore_is_max_run)) [meal_of false; meal_of false]).
    repeat constructor.
Defined.

(** C3. For every meal sequence, the best streak is at least the running
    streak at the end of the scan, and the best streak equals the total meal
    count if and only if every meal of the sequence is diet-compliant; the
    same equivalence holds of the running streak, the value the response
    carries. *)
Theorem C3_best_ge_running_and_full_iff_all_diet :
  ∀ sortedMeals,
    score (streak_loop sortedMeals) ≤ bestScore (streak_loop sortedMeals) ∧
    (bestScore (streak_loop sortedMeals) = length sortedMeals ↔ all_diet sortedMeals) ∧
    (score (streak_loop sortedMeals) = length sortedMeals ↔ all_diet sortedMeals).
Proof.
  intros l. pose proof (bestScore_ge_score l) as Hge. split; [done |].
  destruct (bestScore_max_run l) as [[i [Hle Hrun]] Hmax].
  assert (bestScore (streak_loop l) = length l → all_diet l) as Hfull.
  { intros Heq. apply all_diet_run. rewrite Heq in *.
    assert (i = 0) as -> by lia. by split. }
  split; split.
  - done.
  - intros Hall. apply all_diet_run, Hmax in Hall. lia.
  - intros Heq. apply Hfull. lia.
  - intros Hall. apply (trailing_run_unique l); [apply score_trailing_run |].
    apply all_diet_run in Hall. split; [| lia].
    by replace (length l - length l) with 0 by lia.
Qed.

(** ** Registration *)

(** C9. For every registration request that is answered, the reply is 201
    and sets a cookie named [sessionId] with path [/] whose [maxAge] is
    [1000 * 60 * 60 * 24 * 7 = 604800000]: seven days counted in
    milliseconds, a thousand times the 604800 seconds of seven days. *)
Theorem C9_session_cookie_maxAge_in_milliseconds
    (newDate : string → Date) (sessionId id : Uuid) (body : createUserBody.t)
    (db db' : Database) (reply : Reply) :
  post_users newDate sessionId id body db = (db', fulfilled reply) →
  statusCode reply = 201 ∧
  ∃ cookie,
    setCookie reply = Some cookie ∧
    cookie_name cookie = "sessionId" ∧
    cookie_value cookie = sessionId ∧
    path (cookie_options cookie) = "/" ∧
    maxAge (cookie_options cookie) = 604800000%Z ∧
    maxAge (cookie_options cookie) = (1000 * (60 * 60 * 24 * 7))%Z ∧
    maxAge (cookie_options cookie) ≠ (60 * 60 * 24 * 7)%Z.
Proof.
  unfold post_users, await, users_insert, resolve.
  repeat case_decide; intros Hrun; simplify_eq. simpl.
  split; [done |]. eexists. split; [done |]. simpl. repeat split. lia.
Qed.

Lemma C9_session_cookie_maxAge_in_milliseconds_witness :
  statusCode (send_status 201 (Some (session_cookie cy_session))) = 201 ∧
  ∃ cookie,
    setCookie (send_status 201 (Some (session_cookie cy_session))) = Some cookie ∧
    cookie_name cookie = "sessionId" ∧
    cookie_value cookie = cy_session ∧
    path (cookie_options cookie) = "/" ∧
    maxAge (cookie_options cookie) = 604800000%Z ∧
    maxAge (cookie_options cookie) = (1000 * (60 * 60 * 24 * 7))%Z ∧
    maxAge (cookie_options cookie) ≠ (60 * 60 * 24 * 7)%Z.
Proof.
  apply (C9_session_cookie_maxAge_in_milliseconds
           iso_date cy_session cy_id sample_signup sample_db
           {| users_table := [ann; bob;
                {| users.id := cy_id; users.session_id := cy_session; users.name := "Cy";
                   users.email := "cy@example.org";
                   users.birthDate := Some 641865600000%Z |}];
              meal_table := [salad; burger] |}).
  vm_compute. reflexivity.
Defined.

(** ** Every meal has one owner *)

(** The handler body of [POST /meal/] does not itself refuse a cookie that
    matches no user: run on one, it would store the meal with a NULL
    [user_id], which the column allows.  The [preHandler] is what keeps such
    a request from it. *)
Lemma post_meal_unresolved (newDate : string → Date) (db : Database)
    (sessionId : option Uuid) (id : Uuid) (body : createMealBody.t) (ate_at : Timestamp) :
  session_user sessionId db = (db, fulfilled None) →
  newDate (createMealBody.ate_at body) = Some ate_at →
  id ∉ meal.id <$> meal_table db →
  post_meal newDate sessionId id body db =
    ({| users_table := users_table db;
        meal_table := meal_table db ++ [new_meal_row ate_at None id body] |},
     fulfilled (send_status 201 None)).
Proof.
  intros Hu Hdate Hfresh. rewrite (post_meal_found newDate _ _ _ _ _ Hu), Hdate.
  by rewrite decide_False.
Qed.

Lemma users_primary_key_inj (db : Database) (user user' : users.row) :
  users_primary_key db → user ∈ users_table db → user' ∈ users_table db →
  users.id user = users.id user' → user = user'.
Proof.
  intros Hpk Hu Hu' Hid.
  apply list_elem_of_lookup in Hu as [i Hi]. apply list_elem_of_lookup in Hu' as [j Hj].
  assert (i = j) as ->; [| congruence].
  eapply (NoDup_lookup _ _ _ (users.id user) Hpk);
    rewrite list_lookup_fmap; [rewrite Hi | rewrite Hj]; simpl; congruence.
Qed.

(** C6. In every store the routes can reach from the empty tables, every
    meal row has exactly one owning user: its [user_id] is not NULL and is
    the [id] of a user row, and of no other user row.  A meal-create whose
    session cookie matches no user is halted by the [preHandler]: it is
    answered 401 and leaves the store as it was, so the store it leaves is
    again one in which every meal has its owner. *)
Theorem C6_every_reachable_meal_has_one_owner
    (newDate : string → Date) (uuid : string → bool) (db : Database) :
  reachable newDate uuid db →
  (∀ m, m ∈ meal_table db →
     ∃ user, user ∈ users_table db ∧ meal.user_id m = Some (users.id user) ∧
       ∀ user', user' ∈ users_table db →
         meal.user_id m = Some (users.id user') → user' = user) ∧
  (∀ sessionId id body,
     matches_no_user db sessionId →
     let served := serve newDate uuid (POST_meal (Some sessionId) id body) db in
     served = (db, {| statusCode := 401; setCookie := None;
                      payload := unauthorized_body |}) ∧
     reachable newDate uuid served.1 ∧
     every_meal_owned served.1).
Proof.
  intros Hreach. split.
  - intros m Hm.
    destruct (reachable_every_meal_owned newDate uuid db Hreach m Hm)
      as (user & Hu & Hown).
    exists user. split; [done |]. split; [done |]. intros user' Hu' Hown'.
    apply (users_primary_key_inj db);
      [by apply (reachable_users_primary_key newDate uuid) | done | done | congruence].
  - intros sessionId id body Hnone served.
    assert (served = (db, {| statusCode := 401; setCookie := None;
                             payload := unauthorized_body |})) as Hserved.
    { subst served. unfold serve, preHandler_passes, guarded_cookie.
      by rewrite (checkSessionIdExists_unmatched _ _ Hnone). }
    split; [done |]. split; [apply reachable_serve, Hreach |].
    rewrite Hserved. simpl. by apply (reachable_every_meal_owned newDate uuid).
Qed.

Lemma C6_every_reachable_meal_has_one_owner_witness :
  let db := (serve iso_date uuid_shape (POST_meal (Some cy_session) soup_id sample_meal)
               (serve iso_date uuid_shape (POST_users cy_session cy_id sample_signup)
                  empty_database).1).1 in
  meal.user_id <$> meal_table db = [Some cy_id] ∧
  (∀ m, m ∈ meal_table db →
     ∃ user, user ∈ users_table db ∧ meal.user_id m = Some (users.id user) ∧
       ∀ user', user' ∈ users_table db →
         meal.user_id m = Some (users.id user') → user' = user) ∧
  serve iso_date uuid_shape (POST_meal (Some nobody_session) salad_id sample_meal) db
    = (db, {| statusCode := 401; setCookie := None; payload := unauthorized_body |}).
Proof.
  intros db.
  assert (reachable iso_date uuid_shape db) as Hreach
    by apply reachable_serve, reachable_serve, reachable_empty.
  split; [vm_compute; reflexivity |]. split.
  - apply (proj1 (C6_every_reachable_meal_has_one_owner iso_date uuid_shape db Hreach)).
  - apply (proj2 (C6_every_reachable_meal_has_one_owner iso_date uuid_shape db Hreach)
             nobody_session salad_id sample_meal).
    vm_compute. reflexivity.
Defined.

(** * Further properties of the routes *)

(** ** Round trips *)

(** X1. A registration that is answered stores one user row, built from the
    body and the two fresh identifiers, and nothing else; the cookie it sets
    resolves to that row, and [GET /users/] with the cookie returns that row
    alone. *)
Theorem X1_register_then_get_users
    (newDate : string → Date) (sessionId id : Uuid) (body : createUserBody.t)
    (db db' : Database) (reply : Reply) :
  post_users newDate sessionId id body db = (db', fulfilled reply) →
  let row := new_user_row newDate sessionId id body in
  users_table db' = users_table db ++ [row] ∧
  meal_table db' = meal_table db ∧
  cookie_value <$> setCookie reply = Some sessionId ∧
  resolves_to db' sessionId row ∧
  get_users (Some sessionId) db'
    = (db', fulfilled {| statusCode := 200; setCookie := None;
                         payload := users_body [row] |}).
Proof.
  rewrite post_users_run. repeat case_decide; intros Hrun; simplify_eq. cbv zeta.
  set (row := new_user_row newDate sessionId id body). simpl.
  assert (filter (λ u, Some (users.session_id u) = Some sessionId)
            (users_table db ++ [row]) = [row]) as Hfilter.
  { rewrite filter_app, filter_none.
    - by rewrite filter_cons_True.
    - apply Forall_forall. intros u Hu Heq. simplify_eq.
      by apply (list_elem_of_fmap_2 users.session_id) in Hu. }
  repeat split.
  - apply resolves_to_head. simpl. by rewrite Hfilter.
  - unfold get_users. unfold_queries. simpl. unfold binds. by rewrite Hfilter.
Qed.

Lemma X1_register_then_get_users_witness :
  let row := new_user_row iso_date cy_session cy_id sample_signup in
  let db' := {| users_table := [ann; bob; row]; meal_table := [salad; burger] |} in
  users_table db' = users_table sample_db ++ [row] ∧
  meal_table db' = meal_table sample_db ∧
  cookie_value <$> setCookie (send_status 201 (Some (session_cookie cy_session)))
    = Some cy_session ∧
  resolves_to db' cy_session row ∧
  get_users (Some cy_session) db'
    = (db', fulfilled {| statusCode := 200; setCookie := None;
                         payload := users_body [row] |}).
Proof.
  apply (X1_register_then_get_users iso_date cy_session cy_id sample_signup sample_db).
  vm_compute. reflexivity.
Defined.

(** X2. A meal-create by a resolved caller that is answered replies 201
    and appends one row owned by the caller, whose fields are those of the
    body, [ate_at] being the date [new Date] made of the body's; get-by-id
    with the new id and the same session then returns that row (the id, made
    by [randomUUID], being a uuid; an id the params schema refuses would be
    answered by its error). *)
Theorem X2_create_then_get_meal
    (newDate : string → Date) (uuid : string → bool) (db db' : Database)
    (sessionId : Uuid) (user : users.row) (id : Uuid) (body : createMealBody.t)
    (reply : Reply) :
  resolves_to db sessionId user →
  post_meal newDate (Some sessionId) id body db = (db', fulfilled reply) →
  ∃ ate_at,
    newDate (createMealBody.ate_at body) = Some ate_at ∧
    let row := new_meal_row ate_at (Some (users.id user)) id body in
    reply = {| statusCode := 201; setCookie := None; payload := no_body |} ∧
    users_table db' = users_table db ∧
    meal_table db' = meal_table db ++ [row] ∧
    get_meal uuid (Some sessionId) id db'
      = if uuid id
        then (db', fulfilled {| statusCode := 200; setCookie := None;
                                payload := meal_body (js_row row) |})
        else (db', rejected ZodError).
Proof.
  intros Hu. rewrite (post_meal_found newDate _ _ _ _ _ Hu).
  destruct (newDate _) as [ate_at|]; [| done].
  case_decide as Hfresh; intros Hrun; simplify_eq.
  exists ate_at. split; [done |]. cbv zeta. simpl. repeat split.
  set (db' := {| users_table := _; meal_table := _ |}).
  assert (resolves_to db' sessionId user) as Hu' by by apply (resolves_to_users db).
  rewrite (get_meal_resolved uuid _ _ _ _ Hu'). destruct (uuid id); [| done]. simpl.
  rewrite filter_app, filter_none.
  - rewrite filter_cons_True; [done |]. by apply matches_id_user_id.
  - apply Forall_forall. intros r Hr Hmatch.
    apply matches_id_user_id in Hmatch as [<- _].
    by apply Hfresh, list_elem_of_fmap_2.
Qed.

Lemma X2_create_then_get_meal_witness :
  ∃ ate_at,
    iso_date (createMealBody.ate_at sample_meal) = Some ate_at ∧
    let row := new_meal_row ate_at (Some ann_id) soup_id sample_meal in
    let db' := {| users_table := [ann; bob]; meal_table := [salad; burger; row] |} in
    send_status 201 None = {| statusCode := 201; setCookie := None; payload := no_body |} ∧
    users_table db' = users_table sample_db ∧
    meal_table db' = meal_table sample_db ++ [row] ∧
    get_meal uuid_shape (Some ann_session) soup_id db'
      = (db', fulfilled {| statusCode := 200; setCookie := None;
                           payload := meal_body (js_row row) |}).
Proof.
  destruct (X2_create_then_get_meal iso_date uuid_shape sample_db
              {| users_table := [ann; bob];
                 meal_table := [salad; burger;
                   new_meal_row 1704153600000%Z (Some ann_id) soup_id sample_meal] |}
              ann_session ann soup_id sample_meal (send_status 201 None))
    as (ate_at & Hdate & Hrow).
  - reflexivity.
  - vm_compute. reflexivity.
  - exists ate_at. split; [exact Hdate |].
    assert (ate_at = 1704153600000%Z) as -> by (vm_compute in Hdate; congruence).
    exact Hrow.
Defined.



(** ** The counts and the streak of [GET /metrics/] *)

Section count_facts.
Implicit Types (l : list meal.row) (m : meal.row).

Lemma diet_count_snoc l m :
  diet_count (l ++ [m]) = diet_count l + (if meal.is_diet m then 1 else 0).
Proof.
  unfold diet_count. rewrite filter_app, length_app. f_equal.
  rewrite filter_cons, filter_nil. destruct (meal.is_diet m); by case_decide.
Qed.

(** Neither counter of the loop exceeds the number of compliant meals. *)
Lemma streak_le_diet_count l :
  score (streak_loop l) ≤ diet_count l ∧ bestScore (streak_loop l) ≤ diet_count l.
Proof.
  induction l as [|m l [IHs IHb]] using rev_ind; [by unfold streak_loop |].
  rewrite streak_loop_snoc, diet_count_snoc. unfold streak_step. simpl.
  destruct (meal.is_diet m); case_decide; lia.
Qed.

Lemma diet_count_perm l l' : l ≡ₚ l' → diet_count l = diet_count l'.
Proof. intros Hperm. unfold diet_count. by rewrite Hperm. Qed.

(** The rows counted by [inDiet] and [outDiet] split the rows counted by
    [mealsCount]. *)
Lemma filter_is_diet_split (owner : Uuid) (rows : list meal.row) :
  length (filter (λ r, meal.user_id r = Some owner) rows) =
  length (filter (λ r, meal.user_id r = Some owner ∧ meal.is_diet r = true) rows) +
  length (filter (λ r, meal.user_id r = Some owner ∧ meal.is_diet r = false) rows).
Proof.
  induction rows as [|r rows IH]; [done |]. rewrite !filter_cons.
  destruct (meal.is_diet r) eqn:Hr; repeat case_decide; simpl; try lia;
    exfalso; intuition congruence.
Qed.

Lemma filter_owner_diet (owner : Uuid) (rows : list meal.row) :
  length (filter (λ r, meal.user_id r = Some owner ∧ meal.is_diet r = true) rows) =
  diet_count (filter (λ r, meal.user_id r = Some owner) rows).
Proof.
  unfold diet_count. rewrite list_filter_filter. f_equal.
  apply list_filter_iff. intros r. tauto.
Qed.
End count_facts.

(** X4. For a resolved caller [GET /users/metrics/] replies 200 with three
    one-row count results, as [.count('*', { as: 'total' })] resolves to
    them: the [total] of [mealsCount] is the number of the caller's meals,
    that of [inDiet] the number of them that are diet-compliant, the first
    is the sum of those of [inDiet] and [outDiet], and [score.bestScore]
    never exceeds that of [inDiet]; the store is not changed. *)
Theorem X4_metrics_counts (db : Database) (sessionId : Uuid) (user : users.row) :
  resolves_to db sessionId user →
  ∃ r n_in n_out,
    get_metrics (Some sessionId) db
      = (db, fulfilled {| statusCode := 200; setCookie := None;
                          payload := metrics_body r |}) ∧
    metrics.mealsCount r = [{| total := length (meals_of (users.id user) db) |}] ∧
    metrics.inDiet r = [{| total := n_in |}] ∧
    metrics.outDiet r = [{| total := n_out |}] ∧
    n_in = diet_count (meals_of (users.id user) db) ∧
    length (meals_of (users.id user) db) = n_in + n_out ∧
    metrics.bestScore (metrics.score r) ≤ n_in.
Proof.
  intros Hu. do 3 eexists. split; [apply (get_metrics_resolved _ _ _ Hu) |]. simpl.
  unfold meals_of.
  rewrite (list_filter_iff _ (λ r, meal.user_id r = Some (users.id user)))
    by apply matches_user_id.
  rewrite (list_filter_iff (meal_matches (where_user_id_is_diet (Some user) true))
             (λ r, meal.user_id r = Some (users.id user) ∧ meal.is_diet r = true))
    by apply matches_user_id_is_diet.
  rewrite (list_filter_iff (meal_matches (where_user_id_is_diet (Some user) false))
             (λ r, meal.user_id r = Some (users.id user) ∧ meal.is_diet r = false))
    by apply matches_user_id_is_diet.
  split; [done |]. split; [done |]. split; [done |].
  split; [apply filter_owner_diet |].
  split; [apply filter_is_diet_split |].
  rewrite filter_owner_diet.
  destruct (orderBy_ate_at_sorted
              (filter (λ r, meal.user_id r = Some (users.id user)) (meal_table db)))
    as [_ Hperm].
  rewrite <- (diet_count_perm _ _ Hperm). apply streak_le_diet_count.
Qed.

Lemma X4_metrics_counts_witness :
  ∃ r n_in n_out,
    get_metrics (Some ann_session) sample_week
      = (sample_week, fulfilled {| statusCode := 200; setCookie := None;
                                   payload := metrics_body r |}) ∧
    metrics.mealsCount r = [{| total := length (meals_of (users.id ann) sample_week) |}] ∧
    metrics.inDiet r = [{| total := n_in |}] ∧
    metrics.outDiet r = [{| total := n_out |}] ∧
    n_in = diet_count (meals_of (users.id ann) sample_week) ∧
    length (meals_of (users.id ann) sample_week) = n_in + n_out ∧
    metrics.bestScore (metrics.score r) ≤ n_in.
Proof. apply (X4_metrics_counts sample_week ann_session ann). reflexivity. Defined.

(** X5. The value the metrics response carries, the running counter at the
    end of the loop, is 0 exactly when there is no meal or the last meal
    scanned is not diet-compliant. *)
Theorem X5_reported_streak_zero_iff (sortedMeals : list meal.row) :
  score (streak_loop sortedMeals) = 0 ↔
  ∀ m, last sortedMeals = Some m → meal.is_diet m = false.
Proof.
  destruct sortedMeals as [|m l _] using rev_ind.
  - split; [intros _ m; discriminate | done].
  - rewrite streak_loop_snoc, last_snoc. unfold streak_step. simpl. split.
    + intros Hzero m' Hm'. simplify_eq. by destruct (meal.is_diet m').
    + intros Hlast. by rewrite (Hlast m eq_refl).
Qed.

(** X6. Meals scanned later never lower the loop's [bestScore]: the best
    streak of a sequence is at most that of any extension of it, and at
    most the number of compliant meals. *)
Theorem X6_bestScore_monotone (sortedMeals later : list meal.row) :
  bestScore (streak_loop sortedMeals) ≤ bestScore (streak_loop (sortedMeals ++ later)) ∧
  bestScore (streak_loop sortedMeals) ≤ diet_count sortedMeals.
Proof.
  split; [| apply streak_le_diet_count].
  induction later as [|m later IH] using rev_ind; [by rewrite app_nil_r |].
  rewrite app_assoc, streak_loop_snoc. unfold streak_step. simpl. case_decide; lia.
Qed.

(** ** What no request does *)

(** X8. No request removes or changes a user row: after any request the
    user rows are those before, followed, for a registration that is
    answered, by the one new row. *)
Theorem X8_users_only_grow
    (newDate : string → Date) (uuid : string → bool) (req : Request) (db : Database) :
  users_table (serve newDate uuid req db).1 = users_table db ∨
  ∃ sessionId id body,
    req = POST_users sessionId id body ∧
    users_table (serve newDate uuid req db).1
      = users_table db ++ [new_user_row newDate sessionId id body].
Proof.
  destruct (serve_effect newDate uuid req db)
    as [-> | [(s & id & body & -> & ->) | [(s & id & user & _ & ->)
       | [(user & id & d & ->) | (s & id & body & user & t & _ & _ & _ & ->)]]]];
    simpl; eauto 10.
Qed.

(** X9. No request changes the [id] or the [user_id] of a meal row it
    keeps, and only a delete-by-id removes rows: after any request the
    list of [(id, user_id)] pairs is the one before, or the one before with
    pairs taken out by a delete, or the one before followed by the pair of
    one new row. *)
Theorem X9_meal_keys_are_stable
    (newDate : string → Date) (uuid : string → bool) (req : Request) (db : Database) :
  let keys := λ db : Database, (λ r, (meal.id r, meal.user_id r)) <$> meal_table db in
  keys (serve newDate uuid req db).1 = keys db ∨
  (∃ sessionId id, req = DELETE_meal sessionId id ∧
     keys (serve newDate uuid req db).1 `sublist_of` keys db) ∨
  (∃ sessionId id body owner, req = POST_meal sessionId id body ∧
     keys (serve newDate uuid req db).1 = keys db ++ [(id, owner)]).
Proof.
  intros keys. subst keys. simpl.
  destruct (serve_effect newDate uuid req db)
    as [-> | [(s & id & body & _ & ->) | [(s & id & user & -> & ->)
       | [(user & id & d & ->) | (s & id & body & user & t & -> & _ & _ & ->)]]]];
    simpl.
  - by left.
  - by left.
  - right; left. exists s, id. split; [done |]. apply fmap_sublist, sublist_filter.
  - left. rewrite <- list_fmap_compose.
    apply list_fmap_ext. intros i r _. simpl. by case_decide.
  - right; right. exists s, id, body, (Some (users.id user)).
    split; [done |]. by rewrite fmap_app.
Qed.

(** ** Invariants of the reachable stores *)

(** X10. In every store the routes can reach from the empty tables, no two
    meal rows share an [id], and the [user_id] of a meal row is either NULL
    or the [id] of an existing user row. *)
Theorem X10_reachable_store_invariants
    (newDate : string → Date) (uuid : string → bool) (db : Database) :
  reachable newDate uuid db →
  NoDup (meal.id <$> meal_table db) ∧
  ∀ m, m ∈ meal_table db →
    meal.user_id m = None ∨
    ∃ user, user ∈ users_table db ∧ meal.user_id m = Some (users.id user).
Proof.
  intros Hreach. split; [by apply (reachable_primary_key newDate uuid) |].
  intros m Hm. destruct (meal.user_id m) as [owner|] eqn:Howner; [right | by left].
  pose proof (reachable_owners_exist newDate uuid db Hreach m owner Hm Howner) as Hin.
  apply list_elem_of_fmap in Hin as (user & -> & Huser). eauto.
Qed.

Lemma X10_reachable_store_invariants_witness :
  let db := (serve iso_date uuid_shape (POST_meal (Some cy_session) soup_id sample_meal)
               (serve iso_date uuid_shape (POST_users cy_session cy_id sample_signup)
                  empty_database).1).1 in
  NoDup (meal.id <$> meal_table db) ∧
  ∀ m, m ∈ meal_table db →
    meal.user_id m = None ∨
    ∃ user, user ∈ users_table db ∧ meal.user_id m = Some (users.id user).
Proof.
  apply (X10_reachable_store_invariants iso_date uuid_shape).
  apply reachable_serve, reachable_serve, reachable_empty.
Defined.

(** ** More on update by id *)

Section update_facts.
Variable newDate : string → Date.
Variable uuid : string → bool.
Implicit Types (db : Database) (m r : meal.row) (user : users.row).

(** Under the primary key, the row read before the update is the row
    updated. *)
Lemma update_meal_row db sessionId id body i r :
  meal_primary_key db →
  meal_table db !! i = Some r →
  meal_table (update_meal newDate sessionId id body db).1 !! i = Some r ∨
  meal_table (update_meal newDate sessionId id body db).1 !! i
    = Some (apply_update (merged_update newDate body (Some r)) r).
Proof.
  intros Hpk Hi. apply list_elem_of_lookup_2 in Hi as Hr.
  destruct (session_user_cases sessionId db) as [Hrej | [[user|] Hfound]].
  - left. unfold update_meal, await. by rewrite Hrej.
  - apply session_user_some_inv in Hfound as (s & -> & Hu).
    destruct (decide (meal_matches (where_id_user_id id (Some user)) r)) as [Hm|Hm].
    + pose proof Hm as [Hid Hown]%matches_id_user_id.
      rewrite (update_meal_own newDate _ _ _ _ body _ Hu Hpk Hr Hid Hown).
      destruct (set_ate_at _) as [[t|]|]; simpl; [right | by left | right];
        rewrite list_lookup_fmap, Hi; simpl; by rewrite decide_True.
    + left. apply (update_meal_frame newDate); [done |].
      intros (user' & Hu' & Hid & Hown). apply Hm.
      unfold resolves_to in Hu. rewrite Hu in Hu'. simplify_eq.
      by apply matches_id_user_id.
  - left. by rewrite (update_meal_unresolved newDate _ _ _ _ Hfound).
Qed.

Lemma patch_meal_row db sessionId id request_body i r :
  meal_primary_key db →
  meal_table db !! i = Some r →
  meal_table (patch_meal newDate uuid sessionId id request_body db).1 !! i = Some r ∨
  ∃ body, updateMealBodySchema request_body = Some body ∧
    meal_table (patch_meal newDate uuid sessionId id request_body db).1 !! i
      = Some (apply_update (merged_update newDate body (Some r)) r).
Proof.
  intros Hpk Hi.
  destruct (patch_meal_cases newDate uuid db sessionId id request_body)
    as [-> | (body & Hparse & _ & ->)]; [by left |].
  destruct (update_meal_row db sessionId id body i r Hpk Hi); eauto.
Qed.

Lemma truthy_string_nonempty (s : string) : truthy_string s = true ↔ s ≠ "".
Proof. destruct s; simpl; split; try done. Qed.

(** What the merged update makes of a row, field by field, where the body
    is truthy. *)
Lemma apply_update_merged_truthy (request_body : updateMealRequest.t)
    (body : updateMealBody.t) m :
  updateMealBodySchema request_body = Some body →
  let m' := apply_update (merged_update newDate body (Some m)) m in
  meal.id m' = meal.id m ∧
  meal.user_id m' = meal.user_id m ∧
  (∀ s, updateMealRequest.name request_body = Some (json_string s) → s ≠ "" →
     meal.name m' = s) ∧
  (∀ s, updateMealRequest.description request_body = Some (json_string s) → s ≠ "" →
     meal.description m' = s) ∧
  (∀ s t, updateMealRequest.ate_at request_body = Some (json_string s) → s ≠ "" →
     newDate s = Some t → meal.ate_at m' = t) ∧
  (updateMealRequest.is_diet request_body = Some (json_boolean true) →
     meal.is_diet m' = true).
Proof.
  intros (Hname & Hdescription & Hate_at & His_diet)%updateMealBodySchema_Some.
  destruct body. simpl in *. repeat split.
  - intros s Hs Hne. rewrite Hs in Hname. simpl in Hname. simplify_eq. simpl.
    by apply truthy_string_nonempty in Hne as ->.
  - intros s Hs Hne. rewrite Hs in Hdescription. simpl in Hdescription. simplify_eq.
    simpl. by apply truthy_string_nonempty in Hne as ->.
  - intros s t Hs Hne Ht. rewrite Hs in Hate_at. simpl in Hate_at. simplify_eq.
    simpl. apply truthy_string_nonempty in Hne as ->. by rewrite Ht.
  - intros Hs. rewrite Hs in His_diet. simpl in His_diet. by simplify_eq.
Qed.
End update_facts.

(** X11. Update-by-id only ever moves the diet flag one way and never
    empties a text: under the primary key of [meal], after any
    [PATCH /users/meal/:id] a row whose [is_diet] was [true] still has
    [is_diet = true], and a row whose [name] or [description] was not the
    empty string still has a non-empty one. *)
Theorem X11_patch_cannot_unset
    (newDate : string → Date) (uuid : string → bool) (db : Database)
    (sessionId : option Uuid) (id : string) (request_body : updateMealRequest.t)
    (i : nat) (r : meal.row) :
  meal_primary_key db →
  meal_table db !! i = Some r →
  ∃ r', meal_table (patch_meal newDate uuid sessionId id request_body db).1 !! i = Some r' ∧
    (meal.is_diet r = true → meal.is_diet r' = true) ∧
    (meal.name r ≠ "" → meal.name r' ≠ "") ∧
    (meal.description r ≠ "" → meal.description r' ≠ "").
Proof.
  intros Hpk Hi.
  destruct (patch_meal_row newDate uuid db sessionId id request_body i r Hpk Hi)
    as [-> | (body & _ & ->)]; eexists; (split; [done |]); [done |].
  destruct body as [n d a f]. simpl. repeat split.
  - intros ->. by destruct f as [[]|].
  - intros Hne. destruct n as [s|]; simpl; [| done].
    destruct (truthy_string s) eqn:Hs; simpl; [| done]. by apply truthy_string_nonempty.
  - intros Hne. destruct d as [s|]; simpl; [| done].
    destruct (truthy_string s) eqn:Hs; simpl; [| done]. by apply truthy_string_nonempty.
Qed.

Lemma X11_patch_cannot_unset_witness :
  ∃ r', meal_table (patch_meal iso_date uuid_shape (Some ann_session) salad_id sample_patch
                      sample_db).1 !! 0 = Some r' ∧
    (meal.is_diet salad = true → meal.is_diet r' = true) ∧
    (meal.name salad ≠ "" → meal.name r' ≠ "") ∧
    (meal.description salad ≠ "" → meal.description r' ≠ "").
Proof.
  apply (X11_patch_cannot_unset iso_date uuid_shape sample_db (Some ann_session) salad_id
           sample_patch 0 salad).
  - apply (bool_decide_unpack _). vm_compute. exact I.
  - reflexivity.
Defined.

(** X12. For a [PATCH /users/meal/:id] request on an owned meal that the
    handler carries out (the id is a UUID, the body passes the schema and
    its [ate_at] is [null], empty or a parsable date), a non-empty [name] or
    [description] of the body is stored as sent, a non-empty [ate_at] is
    stored as the date [new Date] makes of it, [is_diet: true] is stored as
    [true], and the row keeps its [id] and its [user_id]. *)
Theorem X12_patch_stores_truthy_fields
    (newDate : string → Date) (uuid : string → bool) (db : Database) (sessionId : Uuid)
    (user : users.row) (id : Uuid) (request_body : updateMealRequest.t)
    (body : updateMealBody.t) (i : nat) (m : meal.row) :
  uuid id = true →
  updateMealBodySchema request_body = Some body →
  ate_at_parses newDate request_body →
  resolves_to db sessionId user →
  meal_primary_key db →
  meal_table db !! i = Some m →
  meal.id m = id →
  meal.user_id m = Some (users.id user) →
  ∃ m', meal_table (patch_meal newDate uuid (Some sessionId) id request_body db).1 !! i
          = Some m' ∧
    meal.id m' = meal.id m ∧
    meal.user_id m' = meal.user_id m ∧
    (∀ s, updateMealRequest.name request_body = Some (json_string s) → s ≠ "" →
       meal.name m' = s) ∧
    (∀ s, updateMealRequest.description request_body = Some (json_string s) → s ≠ "" →
       meal.description m' = s) ∧
    (∀ s, updateMealRequest.ate_at request_body = Some (json_string s) → s ≠ "" →
       newDate s = Some (meal.ate_at m')) ∧
    (updateMealRequest.is_diet request_body = Some (json_boolean true) →
       meal.is_diet m' = true).
Proof.
  intros Huuid Hparse Hdate Hu Hpk Hi Hid Hown.
  apply list_elem_of_lookup_2 in Hi as Hm.
  rewrite (patch_meal_parsed newDate uuid _ _ _ _ _ Hparse), Huuid.
  rewrite (update_meal_own newDate _ _ _ _ body _ Hu Hpk Hm Hid Hown).
  pose proof (merged_ate_at_valid newDate _ _ m Hparse Hdate) as Hvalid.
  destruct (apply_update_merged_truthy newDate request_body body m Hparse)
    as (Hkeep_id & Hkeep_user & Hname & Hdescription & Hate_at & His_diet).
  exists (apply_update (merged_update newDate body (Some m)) m). split.
  { destruct (set_ate_at (merged_update newDate body (Some m))) as [[t|]|]; [| done |];
      simpl; rewrite list_lookup_fmap, Hi; simpl;
      by rewrite decide_True by by apply matches_id_user_id. }
  do 4 (split; [done |]). split; [| done].
  intros s Hs Hne. destruct (Hdate s Hs Hne) as [t Ht]. rewrite Ht. f_equal.
  symmetry. by apply (Hate_at s).
Qed.

Lemma X12_patch_stores_truthy_fields_witness :
  ∃ m', meal_table (patch_meal iso_date uuid_shape (Some ann_session) salad_id sample_patch
                      sample_db).1 !! 0 = Some m' ∧
    meal.id m' = meal.id salad ∧
    meal.user_id m' = meal.user_id salad ∧
    (∀ s, updateMealRequest.name sample_patch = Some (json_string s) → s ≠ "" →
       meal.name m' = s) ∧
    (∀ s, updateMealRequest.description sample_patch = Some (json_string s) → s ≠ "" →
       meal.description m' = s) ∧
    (∀ s, updateMealRequest.ate_at sample_patch = Some (json_string s) → s ≠ "" →
       iso_date s = Some (meal.ate_at m')) ∧
    (updateMealRequest.is_diet sample_patch = Some (json_boolean true) →
       meal.is_diet m' = true).
Proof.
  apply (X12_patch_stores_truthy_fields
           iso_date uuid_shape sample_db ann_session ann salad_id sample_patch
           sample_patch_parsed 0 salad).
  - reflexivity.
  - reflexivity.
  - intros s Hs _. vm_compute in Hs. injection Hs as <-. vm_compute. eauto.
  - reflexivity.
  - apply (bool_decide_unpack _). vm_compute. exact I.
  - reflexivity.
  - reflexivity.
  - reflexivity.
Defined.

(** ** Composing deletes and updates *)

(** X13. Delete-by-id is idempotent: on the store a delete leaves, the same
    delete changes nothing and is answered as the first was; and a delete
    whose id matches no row of the caller leaves the store as it was. *)
Theorem X13_delete_idempotent
    (uuid : string → bool) (sessionId : option Uuid) (id : string) (db : Database) :
  let once := delete_meal uuid sessionId id db in
  delete_meal uuid sessionId id once.1 = (once.1, once.2) ∧
  (Forall (λ r, ¬ targeted db sessionId id r) (meal_table db) → once.1 = db).
Proof.
  simpl. destruct (session_user_cases sessionId db) as [Hrej | [[user|] Hfound]].
  - assert (delete_meal uuid sessionId id db = (db, rejected UndefinedBinding)) as ->
      by (unfold delete_meal, await; by rewrite Hrej).
    simpl. split; [| done]. unfold delete_meal, await. by rewrite Hrej.
  - apply session_user_some_inv in Hfound as Hs. destruct Hs as (s & -> & Hu).
    rewrite (delete_meal_resolved uuid _ _ _ _ Hu).
    destruct (uuid id) eqn:Huuid; simpl.
    + split.
      * set (db' := {| users_table := _; meal_table := _ |}).
        assert (resolves_to db' s user) as Hu' by by apply (resolves_to_users db).
        rewrite (delete_meal_resolved uuid _ _ _ _ Hu'), Huuid. simpl. f_equal. f_equal.
        apply filter_all, Forall_forall. intros r Hr.
        by apply list_elem_of_filter in Hr as [Hr _].
      * intros Hnone. rewrite filter_all; [apply database_eta |].
        eapply Forall_impl; [exact Hnone |]. intros r Hr Hm. apply Hr.
        exists user. split; [done |]. by apply matches_id_user_id.
    + split; [| done]. by rewrite (delete_meal_resolved uuid _ _ _ _ Hu), Huuid.
  - rewrite (delete_meal_unresolved uuid _ _ _ Hfound). simpl. split; [| done].
    by apply delete_meal_unresolved.
Qed.

Section idempotence_facts.
Variable newDate : string → Date.
Variable uuid : string → bool.
Implicit Types (db : Database) (m r : meal.row) (user : users.row).

(** Updating a row with the body it was just updated with changes nothing. *)
Lemma apply_update_merged_again (body : updateMealBody.t) m :
  let m' := apply_update (merged_update newDate body (Some m)) m in
  apply_update (merged_update newDate body (Some m')) m' = m'.
Proof.
  destruct body as [n d a f], m as [mid mn md ma mf mu]. unfold apply_update. simpl.
  f_equal.
  - destruct n as [s|]; simpl; [| done]. by destruct (truthy_string s).
  - destruct d as [s|]; simpl; [| done]. by destruct (truthy_string s).
  - destruct a as [s|]; simpl; [| done].
    destruct (truthy_string s); simpl; [| done]. by destruct (newDate s).
  - by destruct f as [[]|].
Qed.

(** Whether the date of the update is an Invalid Date depends on the body
    alone. *)
Lemma merged_ate_at_invalid (body : updateMealBody.t) m m' :
  set_ate_at (merged_update newDate body (Some m)) = Some None ↔
  set_ate_at (merged_update newDate body (Some m')) = Some None.
Proof.
  destruct body as [n d a f]. simpl.
  destruct a as [s|]; simpl; [| done]. by destruct (truthy_string s).
Qed.

(** A parsed update, applied to the store it left, leaves that store. *)
Lemma update_meal_twice db sessionId id body :
  meal_primary_key db →
  let once := (update_meal newDate sessionId id body db).1 in
  (update_meal newDate sessionId id body once).1 = once.
Proof.
  intros Hpk. simpl.
  destruct (session_user_cases sessionId db) as [Hrej | [[user|] Hfound]].
  - assert ((update_meal newDate sessionId id body db).1 = db) as ->
      by (unfold update_meal, await; by rewrite Hrej).
    unfold update_meal, await. by rewrite Hrej.
  - apply session_user_some_inv in Hfound as Hs. destruct Hs as (s & -> & Hu).
    set (w := where_id_user_id id (Some user)).
    destruct (decide (Exists (meal_matches w) (meal_table db))) as [Hex|Hno].
    + apply Exists_exists in Hex as (m & Hm & Hmatch).
      apply matches_id_user_id in Hmatch as [Hid Hown].
      pose proof (update_meal_own newDate _ _ _ _ body _ Hu Hpk Hm Hid Hown) as Hrun.
      set (d := merged_update newDate body (Some m)) in *.
      destruct (decide (set_ate_at d = Some None)) as [Hinvalid|Hvalid].
      { rewrite Hinvalid in Hrun. rewrite Hrun. simpl. by rewrite Hrun. }
      set (g := λ r, if decide (meal_matches (where_id_user_id id (Some user)) r)
                     then apply_update d r else r).
      set (once := {| users_table := users_table db; meal_table := g <$> meal_table db |}).
      assert (update_meal newDate (Some s) id body db
              = (once, fulfilled (send_object (meal_body (js_number 1))))) as Hfirst.
      { rewrite Hrun. by destruct (set_ate_at d) as [[t|]|]. }
      rewrite Hfirst. simpl.
      assert (resolves_to once s user) as Hu' by by apply (resolves_to_users db).
      assert (meal_primary_key once) as Hpk'.
      { unfold meal_primary_key, once. simpl. rewrite <- list_fmap_compose.
        erewrite list_fmap_ext; [exact Hpk |]. intros i r _. unfold g. simpl.
        by case_decide. }
      assert (apply_update d m ∈ meal_table once) as Hm'.
      { unfold once. simpl. apply list_elem_of_fmap. exists m. split; [| done].
        unfold g. by rewrite decide_True by by apply matches_id_user_id. }
      rewrite (update_meal_own newDate _ _ _ _ body _ Hu' Hpk' Hm' Hid Hown).
      set (d' := merged_update newDate body (Some (apply_update d m))).
      assert (set_ate_at d' ≠ Some None) as Hvalid'.
      { intros Habs. apply Hvalid. by apply (merged_ate_at_invalid body m (apply_update d m)). }
      assert ((λ r, if decide (meal_matches (where_id_user_id id (Some user)) r)
                    then apply_update d' r else r) <$> meal_table once
              = meal_table once) as Hsame.
      { unfold once. simpl. rewrite <- list_fmap_compose.
        apply list_fmap_ext. intros i r Hi. simpl. unfold g.
        destruct (decide (meal_matches (where_id_user_id id (Some user)) r)) as [Hr|Hr].
        - apply list_elem_of_lookup_2 in Hi.
          assert (r = m) as ->.
          { apply matches_id_user_id in Hr as [Hrid _].
            apply (primary_key_row db m r Hpk Hm Hi). congruence. }
          rewrite decide_True by by apply matches_id_user_id.
          apply apply_update_merged_again.
        - by rewrite decide_False. }
      destruct (set_ate_at d') as [[t|]|]; [| done |]; unfold fst; rewrite Hsame;
        apply database_eta.
    + apply not_Exists_Forall in Hno; [| apply _].
      assert ((update_meal newDate (Some s) id body db).1 = db) as Hsame.
      { rewrite (update_meal_resolved newDate _ _ _ _ _ Hu). cbv zeta. fold w.
        rewrite (filter_none _ _ Hno).
        destruct (meal_update_empty _); [done |].
        destruct (set_ate_at _) as [[t|]|]; simpl;
          rewrite update_none by done; apply database_eta. }
      by rewrite !Hsame.
  - by rewrite !(update_meal_unresolved newDate _ _ _ _ Hfound).
Qed.
End idempotence_facts.

(** X14. Update-by-id is idempotent on the store: under the primary key of
    [meal], a [PATCH /users/meal/:id] sent again with the same cookie, id
    and body leaves the store as the first one left it. *)
Theorem X14_patch_idempotent
    (newDate : string → Date) (uuid : string → bool) (db : Database)
    (sessionId : option Uuid) (id : string) (request_body : updateMealRequest.t) :
  meal_primary_key db →
  let once := (patch_meal newDate uuid sessionId id request_body db).1 in
  (patch_meal newDate uuid sessionId id request_body once).1 = once.
Proof.
  intros Hpk. simpl.
  destruct (updateMealBodySchema request_body) as [body|] eqn:Hparse.
  - rewrite !(patch_meal_parsed newDate uuid _ _ _ _ _ Hparse).
    destruct (uuid id); [| done]. by apply update_meal_twice.
  - by rewrite !(patch_meal_refused newDate uuid _ _ _ _ Hparse).
Qed.

Lemma X14_patch_idempotent_witness :
  let once := (patch_meal iso_date uuid_shape (Some ann_session) salad_id sample_patch
                 sample_db).1 in
  (patch_meal iso_date uuid_shape (Some ann_session) salad_id sample_patch once).1 = once.
Proof.
  apply (X14_patch_idempotent iso_date uuid_shape sample_db (Some ann_session) salad_id
           sample_patch).
  apply (bool_decide_unpack _). vm_compute. exact I.
Defined.

(** ** Meals without an owner *)

(** X15. A meal row whose [user_id] is NULL is out of everyone's reach:
    whatever the request, the row is still in the table afterwards, and
    whatever the cookie, [GET /users/meal/] does not list it and
    [GET /users/meal/:id] does not return it. *)
Theorem X15_ownerless_meal_out_of_reach
    (newDate : string → Date) (uuid : string → bool) (db : Database) (r : meal.row) :
  r ∈ meal_table db →
  meal.user_id r = None →
  (∀ req, r ∈ meal_table (serve newDate uuid req db).1) ∧
  (∀ sessionId rows,
     (get_meals sessionId db).2 = fulfilled (send_object (meals_body rows)) → r ∉ rows) ∧
  (∀ sessionId id,
     (get_meal uuid sessionId id db).2 ≠ fulfilled (send_object (meal_body (js_row r)))).
Proof.
  intros Hr Hnull.
  assert (∀ id user, ¬ meal_matches (where_id_user_id id (Some user)) r) as Hno.
  { intros id user Hm. apply matches_id_user_id in Hm as [_ Hm]. congruence. }
  split; [| split].
  - intros req. destruct (serve_effect newDate uuid req db)
      as [-> | [(s & id & body & _ & ->) | [(s & id & user & _ & ->)
         | [(user & id & d & ->) | (s & id & body & user & t & _ & _ & _ & ->)]]]];
      simpl; try done.
    + apply list_elem_of_filter. split; [apply Hno | done].
    + apply list_elem_of_fmap. exists r. split; [| done]. by rewrite decide_False.
    + apply elem_of_app. by left.
  - intros sessionId rows Hrows Hin.
    destruct (session_user_cases sessionId db) as [Hrej | [[user|] Hfound]].
    + unfold get_meals, await in Hrows. by rewrite Hrej in Hrows.
    + apply session_user_some_inv in Hfound as (s & -> & Hu).
      rewrite (get_meals_resolved _ _ _ Hu) in Hrows. simpl in Hrows. simplify_eq.
      apply list_elem_of_filter in Hin as [Hown _]. congruence.
    + unfold get_meals, await at 1 in Hrows. by rewrite Hfound in Hrows.
  - intros sessionId id Hget.
    destruct (session_user_cases sessionId db) as [Hrej | [[user|] Hfound]].
    + unfold get_meal, await in Hget. by rewrite Hrej in Hget.
    + apply session_user_some_inv in Hfound as (s & -> & Hu).
      rewrite (get_meal_resolved uuid _ _ _ _ Hu) in Hget.
      destruct (uuid id); [| done]. simpl in Hget.
      destruct (head _) as [r'|] eqn:Hhead; simpl in Hget; simplify_eq.
      apply head_Some_elem_of, list_elem_of_filter in Hhead as [Hm _].
      by apply Hno in Hm.
    + by rewrite (get_meal_unresolved uuid _ _ _ Hfound) in Hget.
Qed.

Lemma X15_ownerless_meal_out_of_reach_witness :
  (∀ req, ownerless_soup ∈ meal_table (serve iso_date uuid_shape req ownerless_db).1) ∧
  (∀ sessionId rows,
     (get_meals sessionId ownerless_db).2 = fulfilled (send_object (meals_body rows)) →
     ownerless_soup ∉ rows) ∧
  (∀ sessionId id,
     (get_meal uuid_shape sessionId id ownerless_db).2
       ≠ fulfilled (send_object (meal_body (js_row ownerless_soup)))).
Proof.
  apply (X15_ownerless_meal_out_of_reach iso_date uuid_shape ownerless_db).
  - apply (bool_decide_unpack _). vm_compute. exact I.
  - reflexivity.
Defined.

(** ** Edge cases of the reads *)

(** X16. For a resolved caller who owns no meal, [GET /users/metrics/]
    replies 200 with [mealsCount], [inDiet] and [outDiet] the one-row count
    results [[{ total: 0 }]] and [score.bestScore] 0, [GET /users/meal/]
    with an empty list, and [GET /users/meal/:id] with [{ meal: undefined }]
    for every id that is a UUID; on any other id the params schema throws. *)
Theorem X16_no_meals_yet
    (uuid : string → bool) (db : Database) (sessionId : Uuid) (user : users.row)
    (id : string) :
  resolves_to db sessionId user →
  meals_of (users.id user) db = [] →
  get_metrics (Some sessionId) db
    = (db, fulfilled {| statusCode := 200; setCookie := None;
                        payload := metrics_body
                          {| metrics.mealsCount := [{| total := 0 |}];
                             metrics.inDiet := [{| total := 0 |}];
                             metrics.outDiet := [{| total := 0 |}];
                             metrics.score := {| metrics.bestScore := 0 |} |} |}) ∧
  get_meals (Some sessionId) db
    = (db, fulfilled {| statusCode := 200; setCookie := None; payload := meals_body [] |}) ∧
  get_meal uuid (Some sessionId) id db
    = if uuid id
      then (db, fulfilled {| statusCode := 200; setCookie := None;
                             payload := meal_body js_undefined |})
      else (db, rejected ZodError).
Proof.
  intros Hu Hnone.
  assert (Forall (λ r, meal.user_id r ≠ Some (users.id user)) (meal_table db)) as Hall.
  { apply Forall_forall. intros r Hr Hown.
    eapply (filter_nil_not_elem_of _ _ r Hnone); done. }
  split; [| split].
  - rewrite (get_metrics_resolved _ _ _ Hu). simpl.
    rewrite !filter_none; [done | | |];
      (eapply Forall_impl; [exact Hall |]); intros r Hr Hm; apply Hr;
      first [ by apply matches_user_id in Hm
            | by apply matches_user_id_is_diet in Hm as [Hm _] ].
  - rewrite (get_meals_resolved _ _ _ Hu). by rewrite Hnone.
  - rewrite (get_meal_resolved uuid _ _ _ _ Hu). destruct (uuid id); [| done].
    rewrite filter_none; [done |].
    eapply Forall_impl; [exact Hall |]. intros r Hr Hm. apply Hr.
    by apply matches_id_user_id in Hm as [_ Hm].
Qed.

Lemma X16_no_meals_yet_witness :
  get_metrics (Some bob_session) sample_week
    = (sample_week, fulfilled {| statusCode := 200; setCookie := None;
                        payload := metrics_body
                          {| metrics.mealsCount := [{| total := 0 |}];
                             metrics.inDiet := [{| total := 0 |}];
                             metrics.outDiet := [{| total := 0 |}];
                             metrics.score := {| metrics.bestScore := 0 |} |} |}) ∧
  get_meals (Some bob_session) sample_week
    = (sample_week, fulfilled {| statusCode := 200; setCookie := None;
                                 payload := meals_body [] |}) ∧
  get_meal uuid_shape (Some bob_session) salad_id sample_week
    = (sample_week, fulfilled {| statusCode := 200; setCookie := None;
                                 payload := meal_body js_undefined |}).
Proof.
  apply (X16_no_meals_yet uuid_shape sample_week bob_session bob salad_id); reflexivity.
Defined.

(** X17. The four GET routes only read: whatever the cookie and the id, the
    store after [GET /users/], [GET /users/metrics/], [GET /users/meal/]
    or [GET /users/meal/:id] is the store before, also when the handler
    throws. *)
Theorem X17_get_routes_only_read
    (newDate : string → Date) (uuid : string → bool) (sessionId : option Uuid)
    (id : string) (db : Database) :
  (serve newDate uuid (GET_users sessionId) db).1 = db ∧
  (serve newDate uuid (GET_metrics sessionId) db).1 = db ∧
  (serve newDate uuid (GET_meals sessionId) db).1 = db ∧
  (serve newDate uuid (GET_meal sessionId id) db).1 = db.
Proof.
  repeat split;
    match goal with
    | |- (serve _ _ ?req _).1 = _ =>
        destruct (handler_store newDate uuid req db) as [-> | [_ ->]]; [done |]; simpl
    end.
  - apply get_users_reads.
  - apply get_metrics_reads.
  - apply get_meals_reads.
  - apply get_meal_reads.
Qed.

(** ** Update by id without a row *)

Section missing_row_facts.
Variable newDate : string → Date.

Lemma falsy_string_field (v : option json) (parsed : option string) :
  z_string_nullable v = Some parsed →
  (falsy v ↔ or_else truthy_string parsed None = None).
Proof.
  unfold falsy. destruct v as [[|b|s|]|]; simpl; intros Hparse; simplify_eq; simpl.
  - split; [done | by left].
  - destruct s; simpl; split; try done; [by right; left |].
    intros [H | [H | H]]; discriminate.
Qed.

Lemma falsy_boolean_field (v : option json) (parsed : option bool) :
  z_boolean_nullable v = Some parsed →
  (falsy v ↔ or_else truthy_boolean parsed None = None).
Proof.
  unfold falsy. destruct v as [[|b|s|]|]; simpl; intros Hparse; simplify_eq; simpl.
  - split; [done | by left].
  - destruct b; simpl; split; try done; [| by right; right].
    intros [H | [H | H]]; discriminate.
Qed.

(** Without a row read before, the object given to [.update] is empty
    exactly when every field of the body is [null] or false-equivalent. *)
Lemma merged_update_empty_iff (request_body : updateMealRequest.t) (body : updateMealBody.t) :
  updateMealBodySchema request_body = Some body →
  meal_update_empty (merged_update newDate body None) = true ↔
  falsy (updateMealRequest.name request_body) ∧
  falsy (updateMealRequest.description request_body) ∧
  falsy (updateMealRequest.ate_at request_body) ∧
  falsy (updateMealRequest.is_diet request_body).
Proof.
  intros (Hn & Hd & Ha & Hf)%updateMealBodySchema_Some.
  rewrite (falsy_string_field _ _ Hn), (falsy_string_field _ _ Hd),
    (falsy_string_field _ _ Ha), (falsy_boolean_field _ _ Hf).
  unfold meal_update_empty, merged_update. simpl.
  destruct (or_else truthy_string (updateMealBody.name body) None),
    (or_else truthy_string (updateMealBody.description body) None),
    (or_else truthy_boolean (updateMealBody.is_diet body) None);
    destruct (updateMealBody.ate_at body) as [date|]; simpl;
    try destruct (truthy_string date); simpl; split; try done;
    intros (? & ? & ? & ?); discriminate.
Qed.
End missing_row_facts.

(** X18. A [PATCH /users/meal/:id] by a resolved caller, with an id that is
    a UUID and a body that passes the schema and whose [ate_at] is [null],
    empty or a parsable date, on an id for which the caller owns no row
    changes nothing: when every field of the body is [null] or
    false-equivalent the handler throws, the update object being empty;
    otherwise it replies 200 with [{ meal: 0 }]. *)
Theorem X18_patch_without_row
    (newDate : string → Date) (uuid : string → bool) (db : Database) (sessionId : Uuid)
    (user : users.row) (id : Uuid) (request_body : updateMealRequest.t)
    (body : updateMealBody.t) :
  uuid id = true →
  updateMealBodySchema request_body = Some body →
  ate_at_parses newDate request_body →
  resolves_to db sessionId user →
  Forall (λ r, ¬ (meal.id r = id ∧ meal.user_id r = Some (users.id user))) (meal_table db) →
  let all_falsy :=
    falsy (updateMealRequest.name request_body) ∧
    falsy (updateMealRequest.description request_body) ∧
    falsy (updateMealRequest.ate_at request_body) ∧
    falsy (updateMealRequest.is_diet request_body) in
  (all_falsy →
   patch_meal newDate uuid (Some sessionId) id request_body db
     = (db, rejected EmptyUpdate)) ∧
  (¬ all_falsy →
   patch_meal newDate uuid (Some sessionId) id request_body db
     = (db, fulfilled {| statusCode := 200; setCookie := None;
                         payload := meal_body (js_number 0) |})).
Proof.
  intros Huuid Hparse _ Hu Hnone all_falsy.
  assert (Forall (λ r, ¬ meal_matches (where_id_user_id id (Some user)) r) (meal_table db))
    as Hno.
  { eapply Forall_impl; [exact Hnone |]. intros r Hr Hm. by apply Hr, matches_id_user_id. }
  rewrite (patch_meal_parsed newDate uuid _ _ _ _ _ Hparse), Huuid.
  rewrite (update_meal_resolved newDate _ _ _ _ _ Hu). cbv zeta.
  rewrite !filter_none by done. cbn [head length].
  pose proof (merged_update_empty_iff newDate _ _ Hparse) as Hempty.
  destruct (meal_update_empty (merged_update newDate body None)) eqn:He.
  - split; [done |]. intros Hn. exfalso. apply Hn. by apply Hempty.
  - split.
    + intros Hall. apply Hempty in Hall. discriminate.
    + intros _. rewrite update_none by done. rewrite database_eta.
      by destruct (set_ate_at _) as [[t|]|].
Qed.

Lemma X18_patch_without_row_witness :
  let all_falsy :=
    falsy (updateMealRequest.name sample_patch) ∧
    falsy (updateMealRequest.description sample_patch) ∧
    falsy (updateMealRequest.ate_at sample_patch) ∧
    falsy (updateMealRequest.is_diet sample_patch) in
  (all_falsy →
   patch_meal iso_date uuid_shape (Some ann_session) burger_id sample_patch sample_db
     = (sample_db, rejected EmptyUpdate)) ∧
  (¬ all_falsy →
   patch_meal iso_date uuid_shape (Some ann_session) burger_id sample_patch sample_db
     = (sample_db, fulfilled {| statusCode := 200; setCookie := None;
                                payload := meal_body (js_number 0) |})).
Proof.
  apply (X18_patch_without_row iso_date uuid_shape sample_db ann_session ann burger_id
           sample_patch sample_patch_parsed).
  - reflexivity.
  - reflexivity.
  - intros s Hs _. vm_compute in Hs. injection Hs as <-. vm_compute. eauto.
  - reflexivity.
  - apply (bool_decide_unpack _). vm_compute. exact I.
Defined.

(** ** Dates that do not parse *)

(** X19. An [ate_at] that [new Date] cannot parse stores nothing: a
    meal-create by a resolved caller with such an [ate_at] is answered 500,
    the insert being refused by the NOT NULL column, and leaves the store as
    it was; so does a [PATCH /users/meal/:id] on an owned meal whose body
    passes the schema and carries such an [ate_at], whatever its other
    fields. *)
Theorem X19_unparsable_date_stores_nothing
    (newDate : string → Date) (uuid : string → bool) (db : Database) (sessionId : Uuid)
    (user : users.row) :
  resolves_to db sessionId user →
  (∀ id body,
     newDate (createMealBody.ate_at body) = None →
     serve newDate uuid (POST_meal (Some sessionId) id body) db
       = (db, {| statusCode := 500; setCookie := None;
                 payload := error_body NotNullViolation |})) ∧
  (∀ request_body body s m,
     updateMealBodySchema request_body = Some body →
     updateMealRequest.ate_at request_body = Some (json_string s) →
     s ≠ "" → newDate s = None →
     meal_primary_key db → m ∈ meal_table db → uuid (meal.id m) = true →
     meal.user_id m = Some (users.id user) →
     serve newDate uuid (PATCH_meal (Some sessionId) (meal.id m) request_body) db
       = (db, {| statusCode := 500; setCookie := None;
                 payload := error_body NotNullViolation |})).
Proof.
  intros Hu.
  assert (checkSessionIdExists db (Some sessionId) = true) as Hpass
    by (apply checkSessionIdExists_resolves; eauto).
  split.
  - intros id body Hdate. unfold serve, preHandler_passes, guarded_cookie.
    rewrite Hpass. unfold handler.
    by rewrite (post_meal_found newDate _ _ _ _ _ Hu), Hdate.
  - intros request_body body s m Hparse Hs Hne Hdate Hpk Hm Huuid Hown.
    unfold serve, preHandler_passes, guarded_cookie. rewrite Hpass. unfold handler.
    rewrite (patch_meal_parsed newDate uuid _ _ _ _ _ Hparse), Huuid.
    rewrite (update_meal_own newDate _ _ _ _ body _ Hu Hpk Hm eq_refl Hown).
    apply updateMealBodySchema_Some in Hparse as (_ & _ & Hate_at & _).
    rewrite Hs in Hate_at. simpl in Hate_at.
    assert (updateMealBody.ate_at body = Some s) as Hbody by congruence.
    unfold merged_update. simpl. rewrite Hbody.
    apply truthy_string_nonempty in Hne as ->. by rewrite Hdate.
Qed.

Lemma X19_unparsable_date_stores_nothing_witness :
  serve iso_date uuid_shape (POST_meal (Some ann_session) soup_id sample_meal_undated)
      sample_db
    = (sample_db, {| statusCode := 500; setCookie := None;
                     payload := error_body NotNullViolation |}) ∧
  serve iso_date uuid_shape (PATCH_meal (Some ann_session) salad_id sample_patch_undated)
      sample_db
    = (sample_db, {| statusCode := 500; setCookie := None;
                     payload := error_body NotNullViolation |}).
Proof.
  split.
  - apply (proj1 (X19_unparsable_date_stores_nothing iso_date uuid_shape sample_db
                    ann_session ann eq_refl) soup_id sample_meal_undated).
    reflexivity.
  - apply (proj2 (X19_unparsable_date_stores_nothing iso_date uuid_shape sample_db
                    ann_session ann eq_refl) sample_patch_undated
             {| updateMealBody.name := Some "caesar salad";
                updateMealBody.description := None;
                updateMealBody.ate_at := Some "yesterday";
                updateMealBody.is_diet := None |} "yesterday" salad).
    + reflexivity.
    + reflexivity.
    + discriminate.
    + reflexivity.
    + apply (bool_decide_unpack _). vm_compute. exact I.
    + apply (bool_decide_unpack _). vm_compute. exact I.
    + reflexivity.
    + reflexivity.
Defined.
